(** * TikTok campaign budget adjuster: the decision engine and the API access layer

    A shallow embedding of [utils.py], [tik_tok_api.py], [config.py] and
    [main.py], and the properties of the budget policy, the retry wrapper,
    the client's token handling, the eligibility filter and the campaign loop.

    Conventions of the embedding.
    - Python numbers (floats and ints read from JSON or from [config.py]) are
      exact rationals [Q]; Python's [==] on numbers is [Qeq].  Integers that
      only count (attempts, delays, clock seconds, status codes) are [Z].
      The rationals have no nan and no infinity: a property of the policy is
      stated under comparisons on its inputs ([0 <= x], [x <= y]), which a nan
      fails, so that it speaks of the inputs on which the model and the floats
      agree.
    - A Python call either returns a value or raises: [outcome].
    - [None] is [None] of an [option]; a dict is a [gmap] with string keys.
    - A JSON reply is read at the types the platform documents: each object is
      the record of the keys the client looks at, a key being optional where
      the client reads it with [.get].
    - Effects are explicit state passing; see each part for its state. *)

From Stdlib Require Import ZArith QArith Qround String List Lia Lqa.
From stdpp Require Import gmap strings list pretty.
From Equations Require Import Equations.

Open Scope Z_scope.

(** ** Exceptions and outcomes *)

(** The exception classes the program defines, raises or can meet.  All of
    them derive from Python's [Exception]; [RequestException] is the base
    class of what the HTTP transport raises. *)
Inductive exn : Type :=
| TikTokAPIError (msg : string)
| RequestException (msg : string)
| ZeroDivisionError
| RecursionError
| KeyError (key : string)
| TypeError (msg : string)
| ValueError (msg : string).

(** [str(e)] *)
Definition str_exn (e : exn) : string :=
  match e with
  | TikTokAPIError msg => msg
  | RequestException msg => msg
  | ZeroDivisionError => "float division by zero"
  | RecursionError => "maximum recursion depth exceeded"
  | KeyError key => "'" +:+ key +:+ "'"
  | TypeError msg => msg
  | ValueError msg => msg
  end.

(** [isinstance(e, TikTokAPIError)] and [isinstance(e, Exception)]: what an
    [except] clause tests. *)
Definition is_TikTokAPIError (e : exn) : bool :=
  match e with TikTokAPIError _ => true | _ => false end.

Definition is_ValueError (e : exn) : bool :=
  match e with ValueError _ => true | _ => false end.

Definition is_Exception (e : exn) : bool := true.

Inductive outcome (A : Type) : Type :=
| Ret (a : A)
| Raise (e : exn).
Arguments Ret {A} a.
Arguments Raise {A} e.

(** ** Numbers *)

Definition Qlt_bool (a b : Q) : bool := if Qlt_le_dec a b then true else false.

(** Python's [max(a, b)] returns [a] unless [b > a]; [min(a, b)] returns [a]
    unless [b < a]. *)
Definition py_max (a b : Q) : Q := if Qlt_bool a b then b else a.
Definition py_min (a b : Q) : Q := if Qlt_bool b a then b else a.

(** ** config.py: the budget parameters *)

Definition TARGET_ROAS : Q := 3 # 2.
Definition MAX_ADJUSTMENT : Q := 3 # 4.
Definition MIN_BUDGET : Q := 50.
Definition DAYS : Z := 30.
Definition MIN_SPEND : Q := 0.
Definition MIN_PAYMENT_RATE : Q := 0.
Definition ADVERTISER_ID : string := "7041312028410778178".

(** ** tik_tok_api.py: the Campaign dataclass *)

(** [campaign_id] is what [dimensions.get("campaign_id")] gave, [budget] what
    [campaign_budgets.get(campaign_id)] gave: both may be [None]. *)
Record Campaign : Type := mkCampaign {
  campaign_id : option string;
  spend : Q;
  total_complete_payment_rate : Q;
  budget : option Q
}.

(** ** utils.py: the budget policy *)

(** [campaign.total_complete_payment_rate / campaign.spend]; Python raises
    [ZeroDivisionError] on a zero divisor. *)
Definition calculate_roas (campaign : Campaign) : outcome Q :=
  if Qeq_bool (spend campaign) 0 then Raise ZeroDivisionError
  else Ret (total_complete_payment_rate campaign / spend campaign)%Q.

Definition calculate_adjustment_factor (roas : Q) : Q :=
  let adjustment := ((roas - TARGET_ROAS) / TARGET_ROAS)%Q in
  py_max (py_min adjustment MAX_ADJUSTMENT) (- MAX_ADJUSTMENT)%Q.

Definition calculate_new_budget (current_budget adjustment_factor : Q) : Q :=
  let new_budget := (current_budget * (1 + adjustment_factor))%Q in
  py_max new_budget MIN_BUDGET.

(** [round(x, 2)]: to the nearest hundredth, ties to the even one. *)
Definition round_half_even (q : Q) : Z :=
  let f := Qfloor q in
  let r := (q - inject_Z f)%Q in
  if Qlt_bool r (1 # 2) then f
  else if Qlt_bool (1 # 2) r then f + 1
  else if Z.even f then f else f + 1.

Definition py_round2 (q : Q) : Q := (inject_Z (round_half_even (q * 100)) / 100)%Q.

(** ** Python values that end up in a dict or on the console *)

Inductive pyval : Type :=
| PNone
| PStr (s : string)
| PBool (b : bool)
| PList (l : list string).

Definition opt_str (o : option string) : pyval :=
  match o with Some s => PStr s | None => PNone end.

(** [str(x)] of an optional string and of an optional integer *)
Definition str_opt (o : option string) : string := default "None" o.
Definition str_code (o : option Z) : string :=
  match o with Some z => pretty z | None => "None" end.

(** ** State and exceptions *)

(** A computation over a state [S] that returns an [A] or raises. *)
Definition M (S A : Type) : Type := S -> outcome A * S.

Definition ret {S A} (a : A) : M S A := fun s => (Ret a, s).
Definition raise {S A} (e : exn) : M S A := fun s => (Raise e, s).
Definition bind {S A B} (m : M S A) (k : A -> M S B) : M S B :=
  fun s => match m s with
           | (Ret a, s') => k a s'
           | (Raise e, s') => (Raise e, s')
           end.
Definition gets {S A} (f : S -> A) : M S A := fun s => (Ret (f s), s).
Definition modify {S} (f : S -> S) : M S unit := fun s => (Ret tt, f s).
Definition lift_outcome {S A} (o : outcome A) : M S A := fun s => (o, s).

(** [try: m  except <catches> as e: handler e] *)
Definition try_except {S A} (m : M S A) (catches : exn -> bool)
    (handler : exn -> M S A) : M S A :=
  fun s => match m s with
           | (Ret a, s') => (Ret a, s')
           | (Raise e, s') => if catches e then handler e s' else (Raise e, s')
           end.

(** A [try] with two [except] clauses: the first clause that matches handles
    the exception; what a handler raises is not caught by its sibling. *)
Definition try_except2 {S A} (m : M S A)
    (catches1 : exn -> bool) (handler1 : exn -> M S A)
    (catches2 : exn -> bool) (handler2 : exn -> M S A) : M S A :=
  fun s => match m s with
           | (Ret a, s') => (Ret a, s')
           | (Raise e, s') =>
               if catches1 e then handler1 e s'
               else if catches2 e then handler2 e s'
               else (Raise e, s')
           end.

Declare Scope py_scope.
Delimit Scope py_scope with py.
Notation "x <- m ;; k" := (bind m (fun x => k))
  (at level 100, m at next level, right associativity) : py_scope.
Notation "m ;;; k" := (bind m (fun _ => k))
  (at level 100, right associativity) : py_scope.
Open Scope py_scope.

(** [d[key]] on a dict *)
Definition subscript {S V} (d : gmap string V) (key : string) : M S V :=
  match d !! key with
  | Some v => ret v
  | None => raise (KeyError key)
  end.

(** ** Console lines and the trace of a run *)

(** What [print] writes, one constructor per [print] call of the program,
    carrying the values the line is formatted from. *)
Inductive line : Type :=
| LRetrying (error : string) (delay attempt max_retries : Z)
| LAccessToken (v : pyval)
| LAdvertiserIdValid (v : pyval)
| LValidIds (v : pyval)
| LAuthFailed (error : string)
| LNoCampaigns
| LFetchFailed (error : string)
| LSkipping (id : option string)
| LUpdated (id : option string) (current_budget new_budget : Q)
| LNoChange (id : option string) (roas : Q)
| LErrorUpdating (id : option string) (error : string)
| LUnexpected (id : option string) (error : string).

(** An invocation of a budget policy function, with the campaign the loop
    is processing when it makes the call. *)
Inductive policy_call : Type :=
| Call_calculate_roas (campaign : Campaign)
| Call_calculate_adjustment_factor (campaign : Campaign) (roas : Q)
| Call_calculate_new_budget (campaign : Campaign) (current_budget adjustment_factor : Q).

(** The trace of a run, oldest event first: console lines, completed
    [time.sleep] calls, and (as ghost events, for stating which values reach
    the policy) the policy calls of the campaign loop. *)
Inductive event : Type :=
| Printed (l : line)
| Slept (delay : Z)
| Invoked (c : policy_call).

(** ** utils.py: retry *)

Section Retry.
Context {W A : Type}.
(** [time.sleep] acting on the state the operation runs in.  It can raise:
    [ValueError] for a negative length, [OverflowError] or [OSError] for a
    length the platform's clock cannot hold. *)
Variable sleep : Z -> M W unit.
Variable func : M W A.
Variables max_retries delay : Z.
Variable exception_types : exn -> bool.

(** The [while attempt <= max_retries] loop, entered with the given value of
    [attempt].  Falling out of the loop returns [None].  An exception of
    [time.sleep] is raised inside the [except] handler, after the notice is
    printed, and leaves the function. *)
Equations? retry_from (attempt : Z) (st : W * list event)
    : outcome (option A) * (W * list event)
    by wf (Z.to_nat (max_retries + 1 - attempt)) lt :=
retry_from attempt (w, tr) with Z_le_dec attempt max_retries => {
  | right _ => (Ret None, (w, tr));
  | left _ with func w => {
      | (Ret a, w') => (Ret (Some a), (w', tr));
      | (Raise e, w') with exception_types e => {
          | false => (Raise e, (w', tr));
          | true with Z_gt_dec (attempt + 1) max_retries => {
              | left _ => (Raise e, (w', tr));
              | right _ with sleep delay w' => {
                  | (Ret _, w'') =>
                      retry_from (attempt + 1)
                        (w'',
                         tr ++ [Printed (LRetrying (str_exn e) delay (attempt + 1)
                                           max_retries);
                                Slept delay]);
                  | (Raise err, w'') =>
                      (Raise err,
                       (w'',
                        tr ++ [Printed (LRetrying (str_exn e) delay (attempt + 1)
                                          max_retries)])) } } } } }.
Proof. lia. Qed.

Definition retry : M (W * list event) (option A) := retry_from 0.
End Retry.

(** ** The remote platform *)

(** JSON bodies the client sends. *)
Inductive payload : Type :=
| ReportPayload (advertiser_id : string) (dimensions metrics : list string)
    (start_date end_date : Z) (campaign_ids : list string) (buying_types : string)
| UpdatePayload (advertiser_id : string) (campaign_id : option string)
    (budget_mode : string) (budget : Q).

(** What is handed to [session.request].  Dates are day numbers. *)
Record request : Type := mkRequest {
  req_method : string;
  req_url : string;
  req_params : list (string * string);
  req_json : option payload;
  req_headers : gmap string pyval;
  req_timeout : Z
}.

(** JSON objects the client reads, each as the record of the keys the client
    looks at; [None] is an absent key.  A metric holds the number [float()]
    makes of it; a budget may be present and [null]. *)
Record Dimensions : Type := mkDimensions {
  dim_campaign_id : option string
}.

Record Metrics : Type := mkMetrics {
  metric_spend : option Q;
  metric_total_complete_payment_rate : option Q
}.

Record Item : Type := mkItem {
  item_campaign_id : option string;
  item_budget : option (option Q);
  item_dimensions : option Dimensions;
  item_metrics : option Metrics
}.

Record Data : Type := mkData {
  data_access_token : option string;
  data_advertiser_ids : option (list string);
  data_list : option (list Item)
}.

Record Response : Type := mkResponse {
  rsp_code : option Z;
  rsp_message : option string;
  rsp_data : option Data
}.

Definition empty_dimensions : Dimensions := mkDimensions None.
Definition empty_metrics : Metrics := mkMetrics None None.
Definition empty_data : Data := mkData None None None.

(** The world outside the process: the HTTP session (request, status check
    and JSON decoding; [inl msg] is a [RequestException]), the UTC clock in
    seconds, and the passing of time during [time.sleep]. *)
Class Platform : Type := {
  World : Type;
  session_request : request -> World -> (string + Response) * World;
  utcnow : World -> Z;
  time_sleep : Z -> World -> World
}.

(** ** tik_tok_api.py: the client *)

Definition BASE_URL : string := "https://business-api.tiktok.com/open_api/v1.3/".
Definition DEFAULT_TIMEOUT : Z := 30.

Record TikTokMarketingAPI : Type := mkAPI {
  app_id : string;
  auth_code : string;
  secret : string;
  ad_id : string;
  _access_token : pyval;
  _token_expiry : option Z
}.

(** [TikTokMarketingAPI(app_id, auth_code, secret, ad_id)] *)
Definition new_api (app_id auth_code secret ad_id : string) : TikTokMarketingAPI :=
  mkAPI app_id auth_code secret ad_id PNone None.

Definition set_token (tok : pyval) (expiry : Z) (self : TikTokMarketingAPI)
    : TikTokMarketingAPI :=
  mkAPI (app_id self) (auth_code self) (secret self) (ad_id self) tok (Some expiry).

(** The test that opens the [access_token] property: no token, no expiry, or
    the expiry reached. *)
Definition token_stale (self : TikTokMarketingAPI) (now : Z) : bool :=
  match _access_token self, _token_expiry self with
  | PNone, _ => true
  | _, None => true
  | _, Some expiry => expiry <=? now
  end.

(** [not token_data or "access_token" not in token_data] *)
Definition token_data_missing (token_data : gmap string pyval) : bool :=
  Nat.eqb (size token_data) 0 ||
  match token_data !! "access_token" with Some _ => false | None => true end.

(** [data.get("code") == 0] *)
Definition code_is_zero (data : Response) : bool :=
  match rsp_code data with Some z => z =? 0 | None => false end.

Definition error_msg_of (data : Response) : string :=
  default "Unknown error" (rsp_message data).

(** [data.get("data", {}).get("list", [])] *)
Definition list_of (data : Response) : list Item :=
  default [] (data_list (default empty_data (rsp_data data))).

Definition date_of (seconds : Z) : Z := seconds / 86400.

Section Client.
Context `{Platform}.

(** The client object together with the world it talks to and the requests
    it has handed to the session so far, oldest first. *)
Record Client : Type := mkClient {
  self : TikTokMarketingAPI;
  net : World;
  wire : list request
}.

Definition update_self (f : TikTokMarketingAPI -> TikTokMarketingAPI) (c : Client) : Client :=
  mkClient (f (self c)) (net c) (wire c).

(** [self._session.request(...)], [raise_for_status()] and [.json()] *)
Definition send (req : request) : M Client Response :=
  fun c =>
    match session_request req (net c) with
    | (inl msg, w) => (Raise (RequestException msg), mkClient (self c) w (wire c ++ [req]))
    | (inr data, w) => (Ret data, mkClient (self c) w (wire c ++ [req]))
    end.

(** [time.sleep(delay)] as the client's process calls it: a negative length
    is refused with [ValueError]; otherwise the time passes.  ([main] only
    pauses for 300 seconds.) *)
Definition client_sleep (delay : Z) : M Client unit :=
  if delay <? 0 then raise (ValueError "sleep length must be non-negative")
  else modify (fun c => mkClient (self c) (time_sleep delay (net c)) (wire c)).

(** The [access_token] property, [get_access_token] and [_make_request] call
    one another.  [depth] is the number of nested calls among the three that
    the interpreter still allows; a call made at depth 0 raises
    [RecursionError], as the interpreter does when its recursion limit is
    reached. *)
Fixpoint access_token (depth : nat) : M Client pyval :=
  match depth with
  | O => raise RecursionError
  | S depth =>
      stale <- gets (fun c => token_stale (self c) (utcnow (net c))) ;;
      (if (stale : bool) then
         token_data <- get_access_token depth ;;
         if token_data_missing token_data then
           raise (TikTokAPIError "Failed to obtain access token")
         else
           tok <- subscript token_data "access_token" ;;
           now <- gets (fun c => utcnow (net c)) ;;
           modify (update_self (set_token tok (now + 3600)))
       else ret tt) ;;;
      gets (fun c => _access_token (self c))
  end

with get_access_token (depth : nat) : M Client (gmap string pyval) :=
  match depth with
  | O => raise RecursionError
  | S depth =>
      try_except
        (me <- gets self ;;
         data <- _make_request depth "GET" "oauth2/access_token/"
                   [("app_id", app_id me); ("secret", secret me);
                    ("auth_code", auth_code me)] None None ;;
         if code_is_zero data then
           match rsp_data data with
           | None => raise (KeyError "data")
           | Some d =>
               let access_token := opt_str (data_access_token d) in
               let advertiser_ids := default [] (data_advertiser_ids d) in
               me <- gets self ;;
               ret (<["access_token" := access_token]>
                    (<["advertiser_ids" := PList advertiser_ids]>
                     (<["ad_id_validity" := PBool (bool_decide (ad_id me ∈ advertiser_ids))]>
                      ∅)))
           end
         else
           raise (TikTokAPIError ("API error: " +:+ error_msg_of data +:+
                                  " (code: " +:+ str_code (rsp_code data) +:+ ")")))
        is_TikTokAPIError
        (fun e => raise (TikTokAPIError ("Failed to get access token: " +:+ str_exn e)))
  end

with _make_request (depth : nat) (method endpoint : string)
    (params : list (string * string)) (json_data : option payload)
    (headers : option (gmap string pyval)) : M Client Response :=
  match depth with
  | O => raise RecursionError
  | S depth =>
      let url := BASE_URL +:+ endpoint in
      tok <- access_token depth ;;
      let default_headers : gmap string pyval :=
        <["Content-Type" := PStr "application/json"]> (<["Access-Token" := tok]> ∅) in
      let default_headers :=
        match headers with
        | Some h => if Nat.eqb (size h) 0 then default_headers else h ∪ default_headers
        | None => default_headers
        end in
      try_except
        (send (mkRequest method url params json_data default_headers DEFAULT_TIMEOUT))
        (fun e => match e with RequestException _ => true | _ => false end)
        (fun e => raise (TikTokAPIError ("API request failed: " +:+ str_exn e)))
  end.

Definition get_campaigns (depth : nat) : M Client (list Item) :=
  try_except
    (me <- gets self ;;
     data <- _make_request depth "GET" "campaign/get/"
               [("advertiser_id", ad_id me)] None None ;;
     if code_is_zero data then ret (list_of data)
     else
       raise (TikTokAPIError ("API error: " +:+ error_msg_of data +:+
                              " (code: " +:+ str_code (rsp_code data) +:+ ")")))
    is_TikTokAPIError
    (fun e => raise (TikTokAPIError ("Failed to get campaigns: " +:+ str_exn e))).

(** [[c["campaign_id"] for c in campaigns]] *)
Fixpoint campaign_ids_of (campaigns : list Item) : outcome (list string) :=
  match campaigns with
  | [] => Ret []
  | c :: rest =>
      match item_campaign_id c with
      | None => Raise (KeyError "campaign_id")
      | Some id =>
          match campaign_ids_of rest with
          | Ret ids => Ret (id :: ids)
          | Raise e => Raise e
          end
      end
  end.

(** [{c["campaign_id"]: c["budget"] for c in campaigns}], filling the dict
    [acc] in list order: a later entry replaces an earlier one with its id. *)
Fixpoint campaign_budgets_of (campaigns : list Item) (acc : gmap string (option Q))
    : outcome (gmap string (option Q)) :=
  match campaigns with
  | [] => Ret acc
  | c :: rest =>
      match item_campaign_id c with
      | None => Raise (KeyError "campaign_id")
      | Some id =>
          match item_budget c with
          | None => Raise (KeyError "budget")
          | Some b => campaign_budgets_of rest (<[id := b]> acc)
          end
      end
  end.

(** [campaign_budgets.get(campaign_id)] *)
Definition budget_of (campaign_budgets : gmap string (option Q))
    (campaign_id : option string) : option Q :=
  match campaign_id with
  | Some id => match campaign_budgets !! id with Some b => b | None => None end
  | None => None
  end.

Definition stat_campaign_id (stat : Item) : option string :=
  dim_campaign_id (default empty_dimensions (item_dimensions stat)).

Definition stat_spend (stat : Item) : Q :=
  default 0%Q (metric_spend (default empty_metrics (item_metrics stat))).

Definition stat_payment_rate (stat : Item) : Q :=
  default 0%Q (metric_total_complete_payment_rate
                 (default empty_metrics (item_metrics stat))).

(** The Campaign the loop builds from a report row. *)
Definition campaign_of (campaign_budgets : gmap string (option Q)) (stat : Item) : Campaign :=
  mkCampaign (stat_campaign_id stat) (stat_spend stat) (stat_payment_rate stat)
    (budget_of campaign_budgets (stat_campaign_id stat)).

(** One turn of [for stat in stats_list], on the list built so far. *)
Definition consider (campaign_budgets : gmap string (option Q))
    (min_spend min_payment_rate : Q) (valid_campaigns : list Campaign) (stat : Item)
    : list Campaign :=
  let campaign_id := stat_campaign_id stat in
  let spend := stat_spend stat in
  let payment_rate := stat_payment_rate stat in
  let budget := budget_of campaign_budgets campaign_id in
  if Qlt_bool min_spend spend && Qlt_bool min_payment_rate payment_rate then
    valid_campaigns ++ [mkCampaign campaign_id spend payment_rate budget]
  else valid_campaigns.

Definition valid_campaigns_of (campaign_budgets : gmap string (option Q))
    (min_spend min_payment_rate : Q) (stats_list : list Item) : list Campaign :=
  foldl (consider campaign_budgets min_spend min_payment_rate) [] stats_list.

Definition report_payload (advertiser_id : string) (start_date end_date : Z)
    (campaign_ids : list string) : payload :=
  ReportPayload advertiser_id ["campaign_id"] ["spend"; "total_complete_payment_rate"]
    start_date end_date campaign_ids "AUCTION".

Definition get_campaign_performance (depth : nat) (days : Z)
    (min_spend min_payment_rate : Q) : M Client (list Campaign) :=
  try_except
    (end_date <- gets (fun c => date_of (utcnow (net c))) ;;
     let start_date := end_date - days in
     campaigns <- get_campaigns depth ;;
     campaign_ids <- lift_outcome (campaign_ids_of campaigns) ;;
     campaign_budgets <- lift_outcome (campaign_budgets_of campaigns ∅) ;;
     match campaign_ids with
     | [] => ret []
     | _ :: _ =>
         me <- gets self ;;
         data <- _make_request depth "POST" "report/integrated/get/" []
                   (Some (report_payload (ad_id me) start_date end_date campaign_ids))
                   None ;;
         if negb (code_is_zero data) then
           raise (TikTokAPIError ("API error: " +:+ error_msg_of data))
         else
           let stats_list := list_of data in
           ret (valid_campaigns_of campaign_budgets min_spend min_payment_rate stats_list)
     end)
    is_TikTokAPIError
    (fun e => raise (TikTokAPIError ("Failed to get campaign performance: " +:+ str_exn e))).

Definition update_campaign_budget (depth : nat) (campaign_id : option string)
    (new_budget : Q) : M Client Response :=
  try_except
    (me <- gets self ;;
     let payload :=
       UpdatePayload (ad_id me) campaign_id "BUDGET_MODE_DAY" (py_round2 new_budget) in
     data <- _make_request depth "POST" "campaign/update/" [] (Some payload) None ;;
     if negb (code_is_zero data) then
       raise (TikTokAPIError ("Failed to update campaign budget: " +:+ error_msg_of data))
     else ret data)
    is_TikTokAPIError
    (fun e => raise (TikTokAPIError ("Error updating campaign " +:+ str_opt campaign_id +:+
                                     " budget: " +:+ str_exn e))).

(** ** main.py *)

Definition emit (e : event) : M (Client * list event) unit :=
  modify (fun st => (st.1, st.2 ++ [e])).

Definition print (l : line) : M (Client * list event) unit := emit (Printed l).

(** [token_info[key]], where [token_info] is what [retry] returned, possibly
    [None] *)
Definition subscript_result (token_info : option (gmap string pyval)) (key : string)
    : M (Client * list event) pyval :=
  match token_info with
  | Some d => subscript d key
  | None => raise (TypeError "'NoneType' object is not subscriptable")
  end.

(** The body of [for campaign in campaigns], with its two [except] clauses. *)
Definition process_campaign (depth : nat) (campaign : Campaign)
    : M (Client * list event) unit :=
  try_except2
    (emit (Invoked (Call_calculate_roas campaign)) ;;;
     roas <- lift_outcome (calculate_roas campaign) ;;
     emit (Invoked (Call_calculate_adjustment_factor campaign roas)) ;;;
     let adjustment_factor := calculate_adjustment_factor roas in
     match budget campaign with
     | None => print (LSkipping (campaign_id campaign))
     | Some current_budget =>
         emit (Invoked (Call_calculate_new_budget campaign current_budget
                          adjustment_factor)) ;;;
         let new_budget := calculate_new_budget current_budget adjustment_factor in
         if negb (Qeq_bool new_budget current_budget) then
           retry client_sleep
             (update_campaign_budget depth (campaign_id campaign) new_budget)
             2 300 is_TikTokAPIError ;;;
           print (LUpdated (campaign_id campaign) current_budget new_budget)
         else
           print (LNoChange (campaign_id campaign) roas)
     end)
    is_TikTokAPIError
    (fun e => print (LErrorUpdating (campaign_id campaign) (str_exn e)))
    is_Exception
    (fun e => print (LUnexpected (campaign_id campaign) (str_exn e))).

Fixpoint process_campaigns (depth : nat) (campaigns : list Campaign)
    : M (Client * list event) unit :=
  match campaigns with
  | [] => ret tt
  | campaign :: rest =>
      process_campaign depth campaign ;;;
      process_campaigns depth rest
  end.

(** Step 1 of [main]: get the access token (through [retry]) and print what
    came back.  [false] stands for the [return] of the [except] clause. *)
Definition get_token_step (depth : nat) : M (Client * list event) bool :=
  try_except
    (token_info <- retry client_sleep (get_access_token depth) 2 300 is_TikTokAPIError ;;
     v <- subscript_result token_info "access_token" ;;
     print (LAccessToken v) ;;;
     v <- subscript_result token_info "ad_id_validity" ;;
     print (LAdvertiserIdValid v) ;;;
     v <- subscript_result token_info "advertiser_ids" ;;
     print (LValidIds v) ;;;
     ret true)
    is_TikTokAPIError
    (fun e => print (LAuthFailed (str_exn e)) ;;; ret false).

(** Step 2 of [main]: fetch the campaign statistics (through [retry]).
    [None] stands for the two [return]s of this step: nothing fetched
    ([not campaigns]), or the fetch failed. *)
Definition get_performance_step (depth : nat)
    : M (Client * list event) (option (list Campaign)) :=
  try_except
    (campaigns <- retry client_sleep
                    (get_campaign_performance depth DAYS MIN_SPEND MIN_PAYMENT_RATE)
                    2 300 is_TikTokAPIError ;;
     match campaigns with
     | None | Some [] => print LNoCampaigns ;;; ret None
     | Some (c :: cs) => ret (Some (c :: cs))
     end)
    is_TikTokAPIError
    (fun e => print (LFetchFailed (str_exn e)) ;;; ret None).

(** [main] from the client object on: the three numbered steps. *)
Definition main_steps (depth : nat) : M (Client * list event) unit :=
  authenticated <- get_token_step depth ;;
  if (authenticated : bool) then
    fetched <- get_performance_step depth ;;
    match fetched with
    | Some campaigns => process_campaigns depth campaigns
    | None => ret tt
    end
  else ret tt.

(** [main()]: build the client from the configuration, then run the steps.
    [APP_ID], [AUTH_CODE] and [SECRET] come from the process environment. *)
Definition main (APP_ID AUTH_CODE SECRET : string) (depth : nat) (w : World)
    : outcome unit * (Client * list event) :=
  main_steps depth (mkClient (new_api APP_ID AUTH_CODE SECRET ADVERTISER_ID) w [], []).

End Client.

(** ** Vocabulary for stating the properties *)

(** The request [_make_request] builds when called without extra headers by a
    client whose cached token is [tok]. *)
Definition api_request (tok : pyval) (method endpoint : string)
    (params : list (string * string)) (json_data : option payload) : request :=
  mkRequest method (BASE_URL +:+ endpoint) params json_data
    (<["Content-Type" := PStr "application/json"]> (<["Access-Token" := tok]> ∅))
    DEFAULT_TIMEOUT.

Definition token_request (me : TikTokMarketingAPI) : request :=
  api_request (_access_token me) "GET" "oauth2/access_token/"
    [("app_id", app_id me); ("secret", secret me); ("auth_code", auth_code me)] None.

Definition campaigns_request (me : TikTokMarketingAPI) : request :=
  api_request (_access_token me) "GET" "campaign/get/" [("advertiser_id", ad_id me)] None.

Definition report_request (me : TikTokMarketingAPI) (start_date end_date : Z)
    (campaign_ids : list string) : request :=
  api_request (_access_token me) "POST" "report/integrated/get/" []
    (Some (report_payload (ad_id me) start_date end_date campaign_ids)).

(** The test of the eligibility filter, on a report row. *)
Definition eligible (min_spend min_payment_rate : Q) (stat : Item) : bool :=
  Qlt_bool min_spend (stat_spend stat) && Qlt_bool min_payment_rate (stat_payment_rate stat).

(** The policy calls of a trace, and the campaign a call was made for. *)
Definition policy_calls (tr : list event) : list policy_call :=
  omap (fun ev => match ev with Invoked c => Some c | _ => None end) tr.

Definition call_campaign (c : policy_call) : Campaign :=
  match c with
  | Call_calculate_roas campaign => campaign
  | Call_calculate_adjustment_factor campaign _ => campaign
  | Call_calculate_new_budget campaign _ _ => campaign
  end.

(** A call of [calculate_new_budget] is made with the budget of its campaign. *)
Definition call_known_budget (c : policy_call) : Prop :=
  match c with
  | Call_calculate_new_budget campaign current_budget _ =>
      budget campaign = Some current_budget
  | _ => True
  end.

(** What C4 asks of a policy call: a campaign with spend > 0 and, for
    [calculate_new_budget], its known budget. *)
Definition policy_input_ok (c : policy_call) : Prop :=
  (0 < spend (call_campaign c))%Q /\ call_known_budget c.

(** A step of the run, from any client and trace, only adds to the trace;
    the policy calls it adds all satisfy [E], and a value it returns
    satisfies [P]. *)
Definition run_meets `{Platform} {A : Type} (m : M (Client * list event) A)
    (E : policy_call -> Prop) (P : A -> Prop) : Prop :=
  forall (cl : Client) (tr : list event),
    exists o cl' new,
      m (cl, tr) = (o, (cl', tr ++ new)) /\
      Forall E (policy_calls new) /\
      (forall a, o = Ret a -> P a).

(** The per-campaign status lines of a trace, as the ids they report on. *)
Definition report_id (ev : event) : option (option string) :=
  match ev with
  | Printed (LSkipping id) => Some id
  | Printed (LUpdated id _ _) => Some id
  | Printed (LNoChange id _) => Some id
  | Printed (LErrorUpdating id _) => Some id
  | Printed (LUnexpected id _) => Some id
  | _ => None
  end.

Definition reports (tr : list event) : list (option string) := omap report_id tr.

(** The three policy calls made for a campaign whose budget is known. *)
Definition calls_before_update (campaign : Campaign) (roas current_budget : Q)
    : list event :=
  [Invoked (Call_calculate_roas campaign);
   Invoked (Call_calculate_adjustment_factor campaign roas);
   Invoked (Call_calculate_new_budget campaign current_budget
              (calculate_adjustment_factor roas))].

(** The line the campaign loop prints for a campaign whose update raised [e]. *)
Definition failure_line (campaign : Campaign) (e : exn) : line :=
  if is_TikTokAPIError e then LErrorUpdating (campaign_id campaign) (str_exn e)
  else LUnexpected (campaign_id campaign) (str_exn e).

(** What the loop does for one campaign, by cases.  The body entered with
    client [cl1] and trace [tr1] leaves client [cl2] and has added [new2]:
    - [calculate_roas] raises: the failure is reported, nothing else is done;
    - the budget is unknown: the campaign is skipped;
    - the new budget equals the current one: "no change" is reported;
    - otherwise the update is made through [retry] (two retries, 300 seconds
      apart, on [TikTokAPIError]); the client is the one the update left;
      when it returned, the update is reported, and when it raised, the
      failure is reported against the campaign. *)
Definition campaign_handled `{Platform} (depth : nat) (campaign : Campaign)
    (cl1 : Client) (tr1 : list event) (cl2 : Client) (new2 : list event) : Prop :=
  match calculate_roas campaign with
  | Raise e =>
      cl2 = cl1 /\
      new2 = [Invoked (Call_calculate_roas campaign); Printed (failure_line campaign e)]
  | Ret roas =>
      match budget campaign with
      | None =>
          cl2 = cl1 /\
          new2 = [Invoked (Call_calculate_roas campaign);
                  Invoked (Call_calculate_adjustment_factor campaign roas);
                  Printed (LSkipping (campaign_id campaign))]
      | Some current_budget =>
          let new_budget :=
            calculate_new_budget current_budget (calculate_adjustment_factor roas) in
          if Qeq_bool new_budget current_budget then
            cl2 = cl1 /\
            new2 = calls_before_update campaign roas current_budget ++
                   [Printed (LNoChange (campaign_id campaign) roas)]
          else
            match retry client_sleep
                    (update_campaign_budget depth (campaign_id campaign) new_budget)
                    2 300 is_TikTokAPIError
                    (cl1, tr1 ++ calls_before_update campaign roas current_budget) with
            | (Ret _, (cl_u, tr_u)) =>
                cl2 = cl_u /\
                tr1 ++ new2
                = tr_u ++ [Printed (LUpdated (campaign_id campaign) current_budget
                                      new_budget)]
            | (Raise e, (cl_u, tr_u)) =>
                cl2 = cl_u /\
                tr1 ++ new2 = tr_u ++ [Printed (failure_line campaign e)]
            end
      end
  end.

(** ** Instruments for observing a run of [retry] *)

(** What [retry] does to its operation, in order: an invocation, or a pause
    of the given length. *)
Inductive step : Type :=
| Attempt
| Pause (delay : Z).

(** The operation [func], made to note each of its invocations in a log kept
    beside its own state; and [sleep], made to note each completed pause
    there. *)
Definition logged {W A} (func : M W A) : M (W * list step) A :=
  fun s => match func s.1 with
           | (o, w') => (o, (w', s.2 ++ [Attempt]))
           end.

Definition logged_sleep {W} (sleep : Z -> M W unit) (delay : Z) : M (W * list step) unit :=
  fun s => match sleep delay s.1 with
           | (Ret u, w') => (Ret u, (w', s.2 ++ [Pause delay]))
           | (Raise err, w') => (Raise err, (w', s.2))
           end.

(** The events [retry] itself adds to a trace: its notices and its pauses. *)
Definition is_retry_event (ev : event) : Prop :=
  match ev with
  | Printed (LRetrying _ _ _ _) => True
  | Slept _ => True
  | _ => False
  end.

(** The completed [time.sleep] calls of a trace. *)
Definition delays (tr : list event) : list Z :=
  omap (fun ev => match ev with Slept d => Some d | _ => None end) tr.

(** ** Vocabulary for the further properties *)

(** From [w], [func] fails [k] times in a row with an exception that
    [exception_types] holds, each failure followed by the pause, which
    completes, and its next invocation returns [a] and leaves [w']. *)
Inductive fails_then_returns {W A : Type} (sleep : Z -> M W unit) (func : M W A)
    (delay : Z) (exception_types : exn -> bool) : nat -> W -> A -> W -> Prop :=
| returns_now (w w' : W) (a : A) :
    func w = (Ret a, w') ->
    fails_then_returns sleep func delay exception_types 0 w a w'
| fails_first (k : nat) (w w1 w2 w' : W) (e : exn) (a : A) :
    func w = (Raise e, w1) ->
    exception_types e = true ->
    sleep delay w1 = (Ret tt, w2) ->
    fails_then_returns sleep func delay exception_types k w2 a w' ->
    fails_then_returns sleep func delay exception_types (S k) w a w'.

(** A client operation that, from any client, sends at most [n] requests and
    leaves the client object (its token and expiry included) as it was. *)
Definition sends_at_most `{Platform} {A : Type} (n : nat) (m : M Client A) : Prop :=
  forall c : Client,
    exists o c' new,
      m c = (o, c') /\
      self c' = self c /\
      wire c' = wire c ++ new /\
      (length new <= n)%nat.

(** The same of a step of the run, which also carries the trace. *)
Definition run_sends_at_most `{Platform} {A : Type} (n : nat)
    (m : M (Client * list event) A) : Prop :=
  forall (c : Client) (tr : list event),
    exists o c' tr' new,
      m (c, tr) = (o, (c', tr')) /\
      self c' = self c /\
      wire c' = wire c ++ new /\
      (length new <= n)%nat.

(** The request [update_campaign_budget] builds. *)
Definition update_request (me : TikTokMarketingAPI) (campaign_id : option string)
    (new_budget : Q) : request :=
  api_request (_access_token me) "POST" "campaign/update/" []
    (Some (UpdatePayload (ad_id me) campaign_id "BUDGET_MODE_DAY" (py_round2 new_budget))).

(** ** The operations of testing/test_utils.py *)

Definition dummy_function : M unit string := ret "success".

(** [sometimes_fails] keeps its calls in a list: it fails while the list is
    empty, adding an entry, and succeeds afterwards. *)
Definition sometimes_fails : M (list Z) string :=
  fun calls =>
    if Nat.ltb (length calls) 1 then (Raise (ValueError "Temporary failure"), calls ++ [1])
    else (Ret "success", calls).

Definition always_fails : M unit string := raise (ValueError "Always fails").

Definition no_sleep {W} (delay : Z) : M W unit := ret tt.

(** ** A scripted platform, for running the program on concrete inputs *)

(** The world is the clock and the replies still to be served, in order;
    each request consumes one reply, and a request made when none is left
    fails at the transport.  Sleeping moves the clock. *)
Definition scripted : Platform := {|
  World := Z * list (string + Response);
  session_request := fun _ w =>
    match w.2 with
    | [] => (inl "connection refused", w)
    | r :: rs => (r, (w.1, rs))
    end;
  utcnow := fun w => w.1;
  time_sleep := fun d w => (w.1 + d, w.2)
|}.

(** A client that already holds a token, valid until second 3600. *)
Definition api_with_token : TikTokMarketingAPI :=
  mkAPI "app" "code" "secret" ADVERTISER_ID (PStr "tok") (Some 3600).

Definition scripted_client (api : TikTokMarketingAPI) (replies : list (string + Response))
    : @Client scripted :=
  @mkClient scripted api (0, replies) [].

Definition ok_list (items : list Item) : string + Response :=
  inr (mkResponse (Some 0) (Some "OK") (Some (mkData None None (Some items)))).

Definition entry (id : string) (b : Q) : Item :=
  mkItem (Some id) (Some (Some b)) None None.

Definition row (id : string) (spend payment_rate : Q) : Item :=
  mkItem None None (Some (mkDimensions (Some id)))
    (Some (mkMetrics (Some spend) (Some payment_rate))).

Definition token_ok (tok : string) (ids : list string) : string + Response :=
  inr (mkResponse (Some 0) (Some "OK") (Some (mkData (Some tok) (Some ids) None))).

Definition update_ok : string + Response :=
  inr (mkResponse (Some 0) (Some "OK") None).

Definition update_refused : string + Response :=
  inr (mkResponse (Some 40002) (Some "budget locked") None).

(** * Properties *)

(** ** The budget policy *)

Lemma Qlt_bool_true (a b : Q) : Qlt_bool a b = true <-> (a < b)%Q.
Proof.
  unfold Qlt_bool. destruct (Qlt_le_dec a b) as [Hlt | Hle].
  - tauto.
  - split; [discriminate |]. intros Hlt. exfalso. exact (Qle_not_lt _ _ Hle Hlt).
Qed.

Lemma Qlt_bool_false (a b : Q) : Qlt_bool a b = false <-> (b <= a)%Q.
Proof.
  unfold Qlt_bool. destruct (Qlt_le_dec a b) as [Hlt | Hle].
  - split; [discriminate |]. intros Hle. exfalso. exact (Qle_not_lt _ _ Hle Hlt).
  - tauto.
Qed.

Lemma py_max_cases (a b : Q) :
  ((a < b)%Q /\ py_max a b = b) \/ ((b <= a)%Q /\ py_max a b = a).
Proof.
  unfold py_max. destruct (Qlt_bool a b) eqn:E.
  - left. split; [by apply Qlt_bool_true | done].
  - right. split; [by apply Qlt_bool_false | done].
Qed.

Lemma py_min_cases (a b : Q) :
  ((b < a)%Q /\ py_min a b = b) \/ ((a <= b)%Q /\ py_min a b = a).
Proof.
  unfold py_min. destruct (Qlt_bool b a) eqn:E.
  - left. split; [by apply Qlt_bool_true | done].
  - right. split; [by apply Qlt_bool_false | done].
Qed.

Lemma MAX_ADJUSTMENT_sign : (- MAX_ADJUSTMENT <= MAX_ADJUSTMENT)%Q.
Proof. discriminate. Qed.

(** C8. For every roas > 0 the adjustment factor lies in
    [-MAX_ADJUSTMENT, +MAX_ADJUSTMENT], and it is the raw value
    (roas - TARGET_ROAS) / TARGET_ROAS whenever that value lies in the
    interval. *)
Theorem calculate_adjustment_factor_clamped (roas : Q) :
  (0 < roas)%Q ->
  ((- MAX_ADJUSTMENT <= calculate_adjustment_factor roas)%Q /\
   (calculate_adjustment_factor roas <= MAX_ADJUSTMENT)%Q) /\
  ((- MAX_ADJUSTMENT <= (roas - TARGET_ROAS) / TARGET_ROAS)%Q ->
   ((roas - TARGET_ROAS) / TARGET_ROAS <= MAX_ADJUSTMENT)%Q ->
   calculate_adjustment_factor roas = ((roas - TARGET_ROAS) / TARGET_ROAS)%Q).
Proof.
  intros _. unfold calculate_adjustment_factor.
  set (raw := ((roas - TARGET_ROAS) / TARGET_ROAS)%Q).
  pose proof MAX_ADJUSTMENT_sign as Hsign.
  destruct (py_min_cases raw MAX_ADJUSTMENT) as [[Hm ->] | [Hm ->]].
  - destruct (py_max_cases MAX_ADJUSTMENT (- MAX_ADJUSTMENT)) as [[Hx ->] | [Hx ->]].
    + exfalso. exact (Qle_not_lt _ _ Hsign Hx).
    + repeat split; [done | apply Qle_refl |].
      intros _ Hhi. exfalso. exact (Qle_not_lt _ _ Hhi Hm).
  - destruct (py_max_cases raw (- MAX_ADJUSTMENT)) as [[Hx ->] | [Hx ->]].
    + repeat split; [apply Qle_refl | done |].
      intros Hlo _. exfalso. exact (Qle_not_lt _ _ Hlo Hx).
    + repeat split; done.
Qed.

Lemma calculate_adjustment_factor_clamped_witness :
  ((- MAX_ADJUSTMENT <= calculate_adjustment_factor 2)%Q /\
   (calculate_adjustment_factor 2 <= MAX_ADJUSTMENT)%Q) /\
  calculate_adjustment_factor 2 = ((2 - TARGET_ROAS) / TARGET_ROAS)%Q.
Proof.
  destruct (calculate_adjustment_factor_clamped 2) as [Hin Hraw]; [reflexivity |].
  split; [exact Hin |].
  apply Hraw; discriminate.
Defined.

(** C3, as the claim states it, fails below the budget floor: with factor 0
    a budget of 40 becomes 50. *)
Lemma calculate_new_budget_zero_factor_counterexample :
  ~ (calculate_new_budget 40 0 == 40)%Q /\ (calculate_new_budget 40 0 == 50)%Q.
Proof. split; [discriminate | reflexivity]. Qed.

(** C3 (amended). If the adjustment factor is 0, the new budget equals the
    current budget when the current budget is at least MIN_BUDGET, and equals
    MIN_BUDGET when the current budget is below it. *)
Theorem calculate_new_budget_zero_factor (current_budget adjustment_factor : Q) :
  (adjustment_factor == 0)%Q ->
  ((MIN_BUDGET <= current_budget)%Q ->
   (calculate_new_budget current_budget adjustment_factor == current_budget)%Q) /\
  ((current_budget < MIN_BUDGET)%Q ->
   (calculate_new_budget current_budget adjustment_factor == MIN_BUDGET)%Q).
Proof.
  intros Hzero. unfold calculate_new_budget.
  assert (Hsame : (current_budget * (1 + adjustment_factor) == current_budget)%Q).
  { rewrite Hzero. ring. }
  destruct (py_max_cases (current_budget * (1 + adjustment_factor)) MIN_BUDGET)
    as [[Hx ->] | [Hx ->]]; rewrite Hsame in Hx.
  - split; [| reflexivity].
    intros Hfloor. exfalso. exact (Qle_not_lt _ _ Hfloor Hx).
  - split; [intros _; exact Hsame |].
    intros Hbelow. exfalso. exact (Qle_not_lt _ _ Hx Hbelow).
Qed.

Lemma calculate_new_budget_zero_factor_witness :
  (calculate_new_budget 80 0 == 80)%Q.
Proof.
  destruct (calculate_new_budget_zero_factor 80 0) as [Hkeep _]; [reflexivity |].
  apply Hkeep. discriminate.
Defined.

(** The policy tests of testing/test_utils.py and the two budget scenarios
    of the specification, run. *)
Example test_calculate_roas :
  calculate_roas (mkCampaign (Some "123") 100 200 (Some 0%Q)) = Ret (200 / 100)%Q /\
  (200 / 100 == 2)%Q.
Proof. split; reflexivity. Qed.

Example test_calculate_adjustment_factor_above_target :
  (calculate_adjustment_factor (TARGET_ROAS * 2) == MAX_ADJUSTMENT)%Q.
Proof. reflexivity. Qed.

Example test_calculate_adjustment_factor_below_target :
  (calculate_adjustment_factor (TARGET_ROAS * (1 # 4)) == - MAX_ADJUSTMENT)%Q.
Proof. reflexivity. Qed.

Example test_calculate_new_budget_above_minimum :
  (calculate_new_budget 100 (1 # 2) == 150)%Q.
Proof. reflexivity. Qed.

Example test_calculate_new_budget_below_minimum :
  (calculate_new_budget 40 (- (1 # 2)) == MIN_BUDGET)%Q.
Proof. reflexivity. Qed.

Example scenario_raise_budget :
  (calculate_adjustment_factor 2 == 1 # 3)%Q /\
  (calculate_new_budget 80 (calculate_adjustment_factor 2) == 320 # 3)%Q.
Proof. split; reflexivity. Qed.

Example scenario_floor_budget :
  (calculate_adjustment_factor (1 # 2) == - (2 # 3))%Q /\
  (calculate_new_budget 40 (calculate_adjustment_factor (1 # 2)) == 50)%Q.
Proof. split; reflexivity. Qed.

(** ** retry *)

Section RetryFacts.
Context {W A : Type}.
Variable sleep : Z -> M W unit.
Variable func : M W A.
Variables max_retries delay : Z.
Variable exception_types : exn -> bool.

(** The loop, one turn unfolded. *)
Lemma retry_from_eq (attempt : Z) (w : W) (tr : list event) :
  retry_from sleep func max_retries delay exception_types attempt (w, tr) =
  if Z_le_dec attempt max_retries then
    match func w with
    | (Ret a, w') => (Ret (Some a), (w', tr))
    | (Raise e, w') =>
        if exception_types e then
          if Z_gt_dec (attempt + 1) max_retries then (Raise e, (w', tr))
          else
            match sleep delay w' with
            | (Ret _, w'') =>
                retry_from sleep func max_retries delay exception_types (attempt + 1)
                  (w'',
                   tr ++ [Printed (LRetrying (str_exn e) delay (attempt + 1) max_retries);
                          Slept delay])
            | (Raise err, w'') =>
                (Raise err,
                 (w'',
                  tr ++ [Printed (LRetrying (str_exn e) delay (attempt + 1) max_retries)]))
            end
        else (Raise e, (w', tr))
    end
  else (Ret None, (w, tr)).
Proof.
  simp retry_from.
  destruct (Z_le_dec attempt max_retries); simpl; [| reflexivity].
  destruct (func w) as [[a | e] w']; simpl; [reflexivity |].
  destruct (exception_types e); simpl; [| reflexivity].
  destruct (Z_gt_dec (attempt + 1) max_retries); simpl; [reflexivity |].
  destruct (sleep delay w') as [[[] | err] w'']; reflexivity.
Qed.

(** A success is returned at once, whatever the attempt number. *)
Lemma retry_from_success (attempt : Z) (w w' : W) (a : A) (tr : list event) :
  attempt <= max_retries ->
  func w = (Ret a, w') ->
  retry_from sleep func max_retries delay exception_types attempt (w, tr)
  = (Ret (Some a), (w', tr)).
Proof.
  intros Hle Hf. rewrite retry_from_eq, Hf.
  destruct (Z_le_dec attempt max_retries); [reflexivity | lia].
Qed.

(** A failure outside [exception_types] propagates at once. *)
Lemma retry_from_not_retryable (attempt : Z) (w w' : W) (e : exn) (tr : list event) :
  attempt <= max_retries ->
  func w = (Raise e, w') ->
  exception_types e = false ->
  retry_from sleep func max_retries delay exception_types attempt (w, tr)
  = (Raise e, (w', tr)).
Proof.
  intros Hle Hf Hex. rewrite retry_from_eq, Hf, Hex.
  destruct (Z_le_dec attempt max_retries); [reflexivity | lia].
Qed.

(** When the pause itself raises, after a retryable failure that leaves a
    retry, its exception leaves [retry]: the notice is printed, there is no
    second invocation. *)
Lemma retry_from_sleep_raises (attempt : Z) (w w1 w2 : W) (e err : exn)
    (tr : list event) :
  attempt + 1 <= max_retries ->
  func w = (Raise e, w1) ->
  exception_types e = true ->
  sleep delay w1 = (Raise err, w2) ->
  retry_from sleep func max_retries delay exception_types attempt (w, tr)
  = (Raise err,
     (w2, tr ++ [Printed (LRetrying (str_exn e) delay (attempt + 1) max_retries)])).
Proof.
  intros Hle Hf Hex Hsleep. rewrite retry_from_eq, Hf, Hex, Hsleep.
  destruct (Z_le_dec attempt max_retries); [| lia].
  destruct (Z_gt_dec (attempt + 1) max_retries); [lia | reflexivity].
Qed.

End RetryFacts.

(** Whatever [retry] does, it only adds its own notices and pauses to the
    trace, and a value it returns is a value the operation returned. *)
Lemma retry_from_trace_grows {W A : Type} (sleep : Z -> M W unit) (func : M W A)
    (max_retries delay : Z) (exception_types : exn -> bool) (n : nat) :
  forall (attempt : Z) (w : W) (tr : list event),
    Z.to_nat (max_retries + 1 - attempt) = n ->
    exists o w' tr',
      retry_from sleep func max_retries delay exception_types attempt (w, tr)
      = (o, (w', tr ++ tr')) /\
      Forall is_retry_event tr' /\
      (forall a, o = Ret (Some a) -> exists w0, func w0 = (Ret a, w')).
Proof.
  induction n as [| n IH]; intros attempt w tr Hn; rewrite retry_from_eq.
  - destruct (Z_le_dec attempt max_retries); [lia |].
    exists (Ret None), w, []. rewrite app_nil_r. by repeat split.
  - destruct (Z_le_dec attempt max_retries); [| lia].
    destruct (func w) as [[a | e] w'] eqn:Hf.
    + exists (Ret (Some a)), w', []. rewrite app_nil_r.
      repeat split; [done |]. intros a' [= <-]. by exists w.
    + destruct (exception_types e).
      * destruct (Z_gt_dec (attempt + 1) max_retries).
        -- exists (Raise e), w', []. rewrite app_nil_r. by repeat split.
        -- destruct (sleep delay w') as [[[] | err] w1].
           ++ destruct (IH (attempt + 1) w1
                         (tr ++ [Printed (LRetrying (str_exn e) delay (attempt + 1)
                                            max_retries);
                                 Slept delay])) as (o & w'' & tr' & Heq & Hall & Hval);
                [lia |].
              exists o, w'', ([Printed (LRetrying (str_exn e) delay (attempt + 1)
                                          max_retries);
                               Slept delay] ++ tr').
              rewrite Heq, <- app_assoc. split; [reflexivity |]. split; [| exact Hval].
              apply Forall_app. split; [| exact Hall].
              repeat constructor.
           ++ exists (Raise err), w1,
                [Printed (LRetrying (str_exn e) delay (attempt + 1) max_retries)].
              split; [reflexivity |]. split; [repeat constructor | discriminate].
      * exists (Raise e), w', []. rewrite app_nil_r. by repeat split.
Qed.

(** Logging the invocations and the pauses does not change the run. *)
Lemma logged_retry_from {W A : Type} (sleep : Z -> M W unit) (func : M W A)
    (max_retries delay : Z) (exception_types : exn -> bool) (n : nat) :
  forall (attempt : Z) (w : W) (log : list step) (tr : list event),
    Z.to_nat (max_retries + 1 - attempt) = n ->
    forall o w' log' tr',
      retry_from (logged_sleep sleep) (logged func) max_retries delay exception_types
        attempt ((w, log), tr) = (o, ((w', log'), tr')) ->
      retry_from sleep func max_retries delay exception_types attempt (w, tr)
      = (o, (w', tr')).
Proof.
  induction n as [| n IH]; intros attempt w log tr Hn o w' log' tr';
    rewrite !retry_from_eq.
  - destruct (Z_le_dec attempt max_retries); [lia |]. by intros [= <- <- _ <-].
  - destruct (Z_le_dec attempt max_retries); [| lia].
    unfold logged at 1. cbn [fst snd].
    destruct (func w) as [[a | e] w1].
    + by intros [= <- <- _ <-].
    + destruct (exception_types e); [| by intros [= <- <- _ <-]].
      destruct (Z_gt_dec (attempt + 1) max_retries); [by intros [= <- <- _ <-] |].
      unfold logged_sleep at 1. cbn [fst snd].
      destruct (sleep delay w1) as [[[] | err] w2]; [| by intros [= <- <- _ <-]].
      apply IH. lia.
Qed.

(** The general form of C7: entered at attempt [k <= r], the loop on an
    operation that always fails in a retryable way, with pauses that always
    complete, makes [r - k] turns of invocation and pause, a last invocation,
    and raises what that raised. *)
Lemma retry_from_exhausts {W A : Type} (sleep : Z -> M W unit) (func : M W A)
    (r delay : Z) (exception_types : exn -> bool) :
  (forall w, exists w', sleep delay w = (Ret tt, w')) ->
  (forall w, exists e w', func w = (Raise e, w') /\ exception_types e = true) ->
  forall (n : nat) (k : Z) (w : W) (log : list step) (tr : list event),
    0 <= k <= r ->
    Z.to_nat (r - k) = n ->
    exists e w_last w' tr',
      retry_from (logged_sleep sleep) (logged func) r delay exception_types k
        ((w, log), tr)
      = (Raise e,
         ((w', log ++ concat (replicate n [Attempt; Pause delay]) ++ [Attempt]),
          tr ++ tr')) /\
      func w_last = (Raise e, w') /\
      delays tr' = replicate n delay.
Proof.
  intros Hsleep Hfail. induction n as [| n IH]; intros k w log tr Hk Hn;
    rewrite retry_from_eq; (destruct (Z_le_dec k r); [| lia]);
    destruct (Hfail w) as (e & w' & Hf & Hex);
    unfold logged at 1; cbn [fst snd]; rewrite Hf, Hex.
  - destruct (Z_gt_dec (k + 1) r); [| lia].
    exists e, w, w', []. rewrite app_nil_r. done.
  - destruct (Z_gt_dec (k + 1) r); [lia |].
    destruct (Hsleep w') as (w1 & Hpause).
    unfold logged_sleep at 1. cbn [fst snd]. rewrite Hpause.
    destruct (IH (k + 1) w1 ((log ++ [Attempt]) ++ [Pause delay])
                (tr ++ [Printed (LRetrying (str_exn e) delay (k + 1) r); Slept delay]))
      as (e' & w_last & w'' & tr' & Heq & Hlast & Hdel); [lia | lia |].
    exists e', w_last, w'',
      ([Printed (LRetrying (str_exn e) delay (k + 1) r); Slept delay] ++ tr').
    rewrite Heq. split; [| split; [exact Hlast |]].
    + rewrite <- !app_assoc. reflexivity.
    + change (delays ([Printed (LRetrying (str_exn e) delay (k + 1) r); Slept delay]
                      ++ tr')) with (delay :: delays tr').
      by rewrite Hdel.
Qed.

(** C7. An operation that always raises a failure of a retryable kind, run
    under [retry] with [max_retries = r >= 0] and a [delay] that [time.sleep]
    accepts (its pauses complete), is invoked exactly r + 1 times, with a
    pause of [delay] after each of the first r failures, and [retry] then
    raises the very exception the last invocation raised.  The log is that of
    the run observed through [logged]; the run without the log has the same
    outcome. *)
Theorem retry_exhausts {W A : Type} (sleep : Z -> M W unit) (func : M W A)
    (r delay : Z) (exception_types : exn -> bool) :
  0 <= r ->
  (forall w, exists w', sleep delay w = (Ret tt, w')) ->
  (forall w, exists e w', func w = (Raise e, w') /\ exception_types e = true) ->
  forall (w : W) (log : list step) (tr : list event),
    exists e w_last w' tr',
      retry (logged_sleep sleep) (logged func) r delay exception_types ((w, log), tr)
      = (Raise e,
         ((w', log ++ concat (replicate (Z.to_nat r) [Attempt; Pause delay]) ++ [Attempt]),
          tr ++ tr')) /\
      retry sleep func r delay exception_types (w, tr) = (Raise e, (w', tr ++ tr')) /\
      func w_last = (Raise e, w') /\
      delays tr' = replicate (Z.to_nat r) delay.
Proof.
  intros Hr Hsleep Hfail w log tr. unfold retry.
  destruct (retry_from_exhausts sleep func r delay exception_types Hsleep Hfail
              (Z.to_nat r) 0 w log tr) as (e & w_last & w' & tr' & Hrun & Hlast & Hdel);
    [lia | f_equal; lia |].
  exists e, w_last, w', tr'. split; [exact Hrun |]. split; [| by split].
  exact (logged_retry_from sleep func r delay exception_types (Z.to_nat (r + 1 - 0))
           0 w log tr eq_refl _ _ _ _ Hrun).
Qed.

(** C10. With [max_retries < 0] the loop body is never entered: [retry]
    returns [None], the operation is not invoked, nothing is printed and
    there is no pause; the state and the trace are as they were. *)
Theorem retry_negative_max_retries {W A : Type} (sleep : Z -> M W unit) (func : M W A)
    (max_retries delay : Z) (exception_types : exn -> bool) :
  max_retries < 0 ->
  forall (w : W) (log : list step) (tr : list event),
    retry sleep func max_retries delay exception_types (w, tr) = (Ret None, (w, tr)) /\
    retry (logged_sleep sleep) (logged func) max_retries delay exception_types
      ((w, log), tr)
    = (Ret None, ((w, log), tr)).
Proof.
  intros Hneg w log tr. unfold retry. rewrite !retry_from_eq.
  destruct (Z_le_dec 0 max_retries); [lia | done].
Qed.

Lemma retry_exhausts_witness :
  exists e w_last w' tr',
    retry (logged_sleep no_sleep) (logged always_fails) 1 0 is_ValueError ((tt, []), [])
    = (Raise e,
       ((w', [] ++ concat (replicate (Z.to_nat 1) [Attempt; Pause 0]) ++ [Attempt]),
        [] ++ tr')) /\
    retry no_sleep always_fails 1 0 is_ValueError (tt, []) = (Raise e, (w', [] ++ tr')) /\
    always_fails w_last = (Raise e, w') /\
    delays tr' = replicate (Z.to_nat 1) 0.
Proof.
  apply (retry_exhausts no_sleep always_fails 1 0 is_ValueError); [lia | |].
  - intros w. exists w. reflexivity.
  - intros w. exists (ValueError "Always fails"), w. split; reflexivity.
Defined.

Lemma retry_negative_max_retries_witness :
  retry no_sleep always_fails (-1) 300 is_Exception (tt, []) = (Ret None, (tt, [])) /\
  retry (logged_sleep no_sleep) (logged always_fails) (-1) 300 is_Exception ((tt, []), [])
  = (Ret None, ((tt, []), [])).
Proof.
  apply (retry_negative_max_retries no_sleep always_fails (-1) 300 is_Exception); lia.
Defined.

(** The three retry tests of testing/test_utils.py, run. *)
Example test_retry_success_immediately :
  retry no_sleep dummy_function 2 0 is_Exception (tt, [])
  = (Ret (Some "success"), (tt, [])).
Proof. reflexivity. Qed.

Example test_retry_with_fail_then_success :
  retry no_sleep sometimes_fails 2 0 is_ValueError ([], [])
  = (Ret (Some "success"),
     ([1], [Printed (LRetrying "Temporary failure" 0 1 2); Slept 0])).
Proof. reflexivity. Qed.

Example test_retry_exceeds_retries :
  retry (logged_sleep no_sleep) (logged always_fails) 1 0 is_ValueError ((tt, []), [])
  = (Raise (ValueError "Always fails"),
     ((tt, [Attempt; Pause 0; Attempt]),
      [Printed (LRetrying "Always fails" 0 1 1); Slept 0])).
Proof. reflexivity. Qed.

(** ** The client: token handling *)

Section ClientFacts.
Context `{Platform}.

(** With no usable token cached, each of the three methods re-enters the
    cycle property -> get_access_token -> _make_request -> property, and no
    depth is enough to leave it: the call ends in [RecursionError], the client
    unchanged and nothing sent. *)
Lemma stale_token_cycle (depth : nat) (c : Client) :
  token_stale (self c) (utcnow (net c)) = true ->
  access_token depth c = (Raise RecursionError, c) /\
  get_access_token depth c = (Raise RecursionError, c) /\
  forall method endpoint params json_data headers,
    _make_request depth method endpoint params json_data headers c
    = (Raise RecursionError, c).
Proof.
  intros Hstale. induction depth as [| depth (IHa & IHg & IHm)].
  - repeat split; reflexivity.
  - repeat split.
    + cbn [access_token]. unfold bind at 1. unfold gets at 1. rewrite Hstale.
      unfold bind at 1. unfold bind at 1. rewrite IHg. reflexivity.
    + cbn [get_access_token]. unfold try_except. unfold bind at 1. unfold gets at 1.
      unfold bind at 1. rewrite IHm. reflexivity.
    + intros. cbn [_make_request]. unfold bind at 1. rewrite IHa. reflexivity.
Qed.

(** C1 (what the code does). For a client with no token cached, or whose
    token has expired, [get_access_token], the [access_token] property and
    every [_make_request] never install a token and never fail with an API
    error: at every recursion depth the interpreter allows they exhaust it,
    without a single request sent. *)
Theorem token_acquisition_recurses_without_bound (depth : nat) (c : Client) :
  token_stale (self c) (utcnow (net c)) = true ->
  get_access_token depth c = (Raise RecursionError, c) /\
  access_token depth c = (Raise RecursionError, c) /\
  forall method endpoint params json_data headers,
    _make_request depth method endpoint params json_data headers c
    = (Raise RecursionError, c).
Proof.
  intros Hstale. destruct (stale_token_cycle depth c Hstale) as (Ha & Hg & Hm).
  by repeat split.
Qed.

(** A fresh token is read from the cache. *)
Lemma access_token_fresh (depth : nat) (c : Client) :
  token_stale (self c) (utcnow (net c)) = false ->
  access_token (S depth) c = (Ret (_access_token (self c)), c).
Proof.
  intros Hfresh. cbn [access_token]. unfold bind at 1. unfold gets at 1.
  rewrite Hfresh. reflexivity.
Qed.

(** With a fresh token, [_make_request] sends exactly one request and turns a
    transport failure into a [TikTokAPIError]. *)
Lemma make_request_fresh (depth : nat) (c : Client) (method endpoint : string)
    (params : list (string * string)) (json_data : option payload) :
  token_stale (self c) (utcnow (net c)) = false ->
  let req := api_request (_access_token (self c)) method endpoint params json_data in
  _make_request (S (S depth)) method endpoint params json_data None c =
  match session_request req (net c) with
  | (inl msg, w) =>
      (Raise (TikTokAPIError ("API request failed: " +:+ msg)),
       mkClient (self c) w (wire c ++ [req]))
  | (inr data, w) => (Ret data, mkClient (self c) w (wire c ++ [req]))
  end.
Proof.
  intros Hfresh req. cbn [_make_request]. unfold bind at 1.
  rewrite (access_token_fresh depth c Hfresh).
  unfold try_except, send. fold (api_request (_access_token (self c)) method endpoint
                                   params json_data). fold req.
  destruct (session_request req (net c)) as [[msg | data] w]; reflexivity.
Qed.

End ClientFacts.

Lemma token_acquisition_recurses_without_bound_witness :
  @get_access_token scripted 1000
    (scripted_client (new_api "app" "code" "secret" ADVERTISER_ID) [])
  = (Raise RecursionError,
     scripted_client (new_api "app" "code" "secret" ADVERTISER_ID) []) /\
  @access_token scripted 1000
    (scripted_client (new_api "app" "code" "secret" ADVERTISER_ID) [])
  = (Raise RecursionError,
     scripted_client (new_api "app" "code" "secret" ADVERTISER_ID) []).
Proof.
  destruct (@token_acquisition_recurses_without_bound scripted 1000
              (scripted_client (new_api "app" "code" "secret" ADVERTISER_ID) []) eq_refl)
    as (Hg & Ha & _).
  split; assumption.
Defined.

Section TokenFacts.
Context `{Platform}.

(** A dict built by [get_access_token] always has the key "access_token". *)
Lemma token_dict_has_key (tok ids validity : pyval) :
  token_data_missing
    (<["access_token" := tok]>
     (<["advertiser_ids" := ids]> (<["ad_id_validity" := validity]> ∅))) = false.
Proof.
  unfold token_data_missing. rewrite lookup_insert_eq.
  destruct (Nat.eqb_spec
              (size (<["access_token" := tok]>
                     (<["advertiser_ids" := ids]>
                      (<["ad_id_validity" := validity]> (∅ : gmap string pyval))))) 0)
    as [Hsize | Hsize]; [| reflexivity].
  apply map_size_empty_iff in Hsize. by apply insert_non_empty in Hsize.
Qed.

(** The check of the [access_token] property on what [get_access_token]
    returned can never fire: every dict [get_access_token] returns passes it. *)
Lemma token_check_never_fires (depth : nat) (c c' : Client)
    (token_data : gmap string pyval) :
  get_access_token depth c = (Ret token_data, c') ->
  token_data_missing token_data = false.
Proof.
  destruct depth as [| depth]; [discriminate |].
  cbn [get_access_token]. unfold try_except, bind at 1, gets at 1, bind at 1.
  destruct (_make_request depth _ _ _ _ _ c) as [[data | e] c1].
  - destruct (code_is_zero data).
    + destruct (rsp_data data) as [d |].
      * unfold bind, gets, ret. intros [= <- _]. apply token_dict_has_key.
      * unfold raise. simpl. discriminate.
    + unfold raise. simpl. discriminate.
  - destruct (is_TikTokAPIError e); unfold raise; discriminate.
Qed.

(** C2 (what the code does). When the token endpoint answers with code 0
    and data without an access_token, [get_access_token] does not raise: it
    returns a dict whose "access_token" is [None], and that dict passes the
    check the [access_token] property makes on it. *)
Theorem get_access_token_returns_none_token (depth : nat) (c : Client)
    (data : Response) (d : Data) (w : World) :
  token_stale (self c) (utcnow (net c)) = false ->
  session_request (token_request (self c)) (net c) = (inr data, w) ->
  rsp_code data = Some 0 ->
  rsp_data data = Some d ->
  data_access_token d = None ->
  exists token_data,
    get_access_token (S (S (S depth))) c
    = (Ret token_data, mkClient (self c) w (wire c ++ [token_request (self c)])) /\
    token_data !! "access_token" = Some PNone /\
    token_data_missing token_data = false.
Proof.
  intros Hfresh Hreply Hcode Hdata Htok.
  cbn [get_access_token]. unfold try_except, bind at 1, gets at 1, bind at 1.
  rewrite (make_request_fresh depth c _ _ _ _ Hfresh).
  fold (token_request (self c)). rewrite Hreply.
  unfold code_is_zero. rewrite Hcode, Hdata, Htok. simpl.
  eexists. split; [reflexivity |]. split.
  - apply lookup_insert_eq.
  - apply token_dict_has_key.
Qed.

End TokenFacts.

Lemma get_access_token_returns_none_token_witness :
  exists token_data,
    @get_access_token scripted 3
      (scripted_client api_with_token
         [inr (mkResponse (Some 0) (Some "OK") (Some (mkData None (Some []) None)))])
    = (Ret token_data,
       @mkClient scripted api_with_token (0, []) [token_request api_with_token]) /\
    token_data !! "access_token" = Some PNone /\
    token_data_missing token_data = false.
Proof.
  apply (@get_access_token_returns_none_token scripted 0
           (scripted_client api_with_token
              [inr (mkResponse (Some 0) (Some "OK") (Some (mkData None (Some []) None)))])
           (mkResponse (Some 0) (Some "OK") (Some (mkData None (Some []) None)))
           (mkData None (Some []) None) (0, [])); reflexivity.
Defined.

(** ** The eligibility filter and the join with the budgets *)

Section FilterFacts.
Variable campaign_budgets : gmap string (option Q).
Variables min_spend min_payment_rate : Q.

Lemma consider_eq (valid_campaigns : list Campaign) (stat : Item) :
  consider campaign_budgets min_spend min_payment_rate valid_campaigns stat =
  valid_campaigns ++
  (if eligible min_spend min_payment_rate stat
   then [campaign_of campaign_budgets stat] else []).
Proof.
  unfold consider, eligible, campaign_of.
  destruct (Qlt_bool min_spend (stat_spend stat)
            && Qlt_bool min_payment_rate (stat_payment_rate stat));
    [reflexivity | by rewrite app_nil_r].
Qed.

Lemma foldl_consider (stats_list : list Item) :
  forall acc,
    foldl (consider campaign_budgets min_spend min_payment_rate) acc stats_list =
    acc ++ List.map (campaign_of campaign_budgets)
             (List.filter (eligible min_spend min_payment_rate) stats_list).
Proof.
  induction stats_list as [| stat rest IH]; intros acc; simpl.
  - by rewrite app_nil_r.
  - rewrite IH, consider_eq.
    destruct (eligible min_spend min_payment_rate stat); simpl.
    + by rewrite <- app_assoc.
    + by rewrite app_nil_r.
Qed.

(** The loop is a filter followed by a map: the rows that pass the test, in
    report order, each joined with its budget. *)
Lemma valid_campaigns_of_filter_map (stats_list : list Item) :
  valid_campaigns_of campaign_budgets min_spend min_payment_rate stats_list =
  List.map (campaign_of campaign_budgets)
    (List.filter (eligible min_spend min_payment_rate) stats_list).
Proof. unfold valid_campaigns_of. by rewrite foldl_consider. Qed.

Lemma eligible_true (stat : Item) :
  eligible min_spend min_payment_rate stat = true <->
  (min_spend < stat_spend stat)%Q /\ (min_payment_rate < stat_payment_rate stat)%Q.
Proof.
  unfold eligible. rewrite andb_true_iff, !Qlt_bool_true. tauto.
Qed.

Lemma valid_campaigns_of_In (stats_list : list Item) (c : Campaign) :
  In c (valid_campaigns_of campaign_budgets min_spend min_payment_rate stats_list) <->
  exists stat,
    In stat stats_list /\ c = campaign_of campaign_budgets stat /\
    (min_spend < stat_spend stat)%Q /\ (min_payment_rate < stat_payment_rate stat)%Q.
Proof.
  rewrite valid_campaigns_of_filter_map, in_map_iff. split.
  - intros (stat & <- & Hin). apply filter_In in Hin as [Hin Hel].
    apply eligible_true in Hel. exists stat. tauto.
  - intros (stat & Hin & -> & Hel). exists stat. split; [reflexivity |].
    apply filter_In. split; [exact Hin |]. by apply eligible_true.
Qed.

(** Every campaign returned passed both thresholds strictly. *)
Lemma valid_campaigns_of_thresholds (stats_list : list Item) (c : Campaign) :
  In c (valid_campaigns_of campaign_budgets min_spend min_payment_rate stats_list) ->
  (min_spend < spend c)%Q /\ (min_payment_rate < total_complete_payment_rate c)%Q.
Proof.
  intros (stat & _ & -> & Hs & Hr)%valid_campaigns_of_In. split; assumption.
Qed.

(** C9. Among the report rows whose payment rate strictly exceeds
    [min_payment_rate], a row whose spend equals [min_spend] yields no
    campaign in the result, and a row whose spend strictly exceeds [min_spend]
    yields its campaign in the result. *)
Theorem eligibility_is_strict (stats_list : list Item) (stat : Item) :
  In stat stats_list ->
  (min_payment_rate < stat_payment_rate stat)%Q ->
  ((stat_spend stat == min_spend)%Q ->
   ~ In (campaign_of campaign_budgets stat)
       (valid_campaigns_of campaign_budgets min_spend min_payment_rate stats_list)) /\
  ((min_spend < stat_spend stat)%Q ->
   In (campaign_of campaign_budgets stat)
      (valid_campaigns_of campaign_budgets min_spend min_payment_rate stats_list)).
Proof.
  intros Hin Hrate. split.
  - intros Heq Hc. apply valid_campaigns_of_thresholds in Hc as [Hs _].
    simpl in Hs. rewrite Heq in Hs. exact (Qlt_irrefl _ Hs).
  - intros Hs. apply valid_campaigns_of_In. exists stat. tauto.
Qed.

End FilterFacts.

Lemma eligibility_is_strict_witness :
  ~ In (campaign_of ∅ (row "A" 100 5))
      (valid_campaigns_of ∅ 100 0 [row "A" 100 5; row "B" 101 5]) /\
  In (campaign_of ∅ (row "B" 101 5))
     (valid_campaigns_of ∅ 100 0 [row "A" 100 5; row "B" 101 5]).
Proof.
  split.
  - apply (eligibility_is_strict ∅ 100 0 [row "A" 100 5; row "B" 101 5] (row "A" 100 5));
      [simpl; tauto | reflexivity | reflexivity].
  - apply (eligibility_is_strict ∅ 100 0 [row "A" 100 5; row "B" 101 5] (row "B" 101 5));
      [simpl; tauto | reflexivity | reflexivity].
Defined.

(** The budgets dict has exactly the ids of the campaign list as keys. *)
Lemma campaign_budgets_of_absent (campaigns : list Item) :
  forall (acc budgets : gmap string (option Q)) (ids : list string) (id : string),
    campaign_ids_of campaigns = Ret ids ->
    campaign_budgets_of campaigns acc = Ret budgets ->
    budgets !! id = None <-> (acc !! id = None /\ ~ In id ids).
Proof.
  induction campaigns as [| c rest IH]; intros acc budgets ids id; simpl.
  - intros [= <-] [= <-]. simpl. tauto.
  - destruct (item_campaign_id c) as [k |]; [| discriminate].
    destruct (campaign_ids_of rest) as [ids' | e] eqn:Hids; [| discriminate].
    intros [= <-].
    destruct (item_budget c) as [b |]; [| discriminate].
    intros Hb. rewrite (IH _ _ _ id eq_refl Hb). simpl.
    destruct (decide (k = id)) as [-> | Hne].
    + rewrite lookup_insert_eq. split; [intros [[=] _] | intros [_ Hn]; tauto].
    + rewrite lookup_insert_ne by done. split; intros [Ha Hn]; (split; [done |]).
      * intros [Hk | Hi]; [done | tauto].
      * tauto.
Qed.

(** C5, as the claim states it, fails for a report row whose campaign id is
    not in the campaign list: the row is returned, with no budget.  Here the
    list has campaign "A" only and the report has a row for "B". *)
Lemma join_counterexample :
  (@get_campaign_performance scripted 2 30 0 0
     (scripted_client api_with_token
        [ok_list [entry "A" 100]; ok_list [row "B" 10 5]])).1
  = Ret [mkCampaign (Some "B") 10 5 None] /\
  campaign_ids_of [entry "A" 100] = Ret ["A"] /\
  ~ In "B" ["A"].
Proof.
  split; [vm_compute; reflexivity |].
  split; [reflexivity |].
  simpl. intros [[=] | []].
Qed.

(** C5 (amended). The result is exactly the report rows that pass the
    thresholds, in report order, each joined with its budget: every campaign
    returned is built from a report row whose spend and payment rate strictly
    exceed the thresholds, and every such row is returned.  So a campaign of
    the list that has no report row is not returned; a report row whose
    campaign id is not in the campaign list is returned all the same when it
    passes the thresholds, with budget [None]. *)
Theorem join_follows_the_report (campaigns : list Item) (ids : list string)
    (campaign_budgets : gmap string (option Q)) (min_spend min_payment_rate : Q)
    (stats_list : list Item) :
  campaign_ids_of campaigns = Ret ids ->
  campaign_budgets_of campaigns ∅ = Ret campaign_budgets ->
  valid_campaigns_of campaign_budgets min_spend min_payment_rate stats_list
  = List.map (campaign_of campaign_budgets)
      (List.filter (eligible min_spend min_payment_rate) stats_list) /\
  (forall stat,
     eligible min_spend min_payment_rate stat = true <->
     (min_spend < stat_spend stat)%Q /\ (min_payment_rate < stat_payment_rate stat)%Q) /\
  (forall c,
     In c (valid_campaigns_of campaign_budgets min_spend min_payment_rate stats_list) ->
     exists stat,
       In stat stats_list /\ campaign_id c = stat_campaign_id stat /\
       c = campaign_of campaign_budgets stat /\
       (min_spend < stat_spend stat)%Q /\
       (min_payment_rate < stat_payment_rate stat)%Q) /\
  (forall id,
     In id ids ->
     (forall stat, In stat stats_list -> stat_campaign_id stat <> Some id) ->
     forall c,
       In c (valid_campaigns_of campaign_budgets min_spend min_payment_rate stats_list) ->
       campaign_id c <> Some id) /\
  (forall stat,
     In stat stats_list ->
     (min_spend < stat_spend stat)%Q ->
     (min_payment_rate < stat_payment_rate stat)%Q ->
     In (campaign_of campaign_budgets stat)
        (valid_campaigns_of campaign_budgets min_spend min_payment_rate stats_list)) /\
  (forall stat id,
     stat_campaign_id stat = Some id ->
     ~ In id ids ->
     budget (campaign_of campaign_budgets stat) = None).
Proof.
  intros Hids Hbudgets.
  assert (Hfrom : forall c,
    In c (valid_campaigns_of campaign_budgets min_spend min_payment_rate stats_list) ->
    exists stat,
      In stat stats_list /\ campaign_id c = stat_campaign_id stat /\
      c = campaign_of campaign_budgets stat /\
      (min_spend < stat_spend stat)%Q /\
      (min_payment_rate < stat_payment_rate stat)%Q).
  { intros c (stat & Hin & -> & Hs & Hr)%valid_campaigns_of_In. exists stat. done. }
  split; [apply valid_campaigns_of_filter_map |].
  split; [intros stat; apply eligible_true |].
  split; [exact Hfrom |]. split; [| split].
  - intros id _ Habsent c Hc Hid. destruct (Hfrom c Hc) as (stat & Hin & Heq & _).
    apply (Habsent stat Hin). congruence.
  - intros stat Hin Hs Hr. apply valid_campaigns_of_In. exists stat. tauto.
  - intros stat id Hid Hnot. unfold campaign_of, budget_of. simpl. rewrite Hid.
    assert (Hnone : campaign_budgets !! id = None).
    { apply (campaign_budgets_of_absent campaigns ∅ campaign_budgets ids id Hids Hbudgets).
      split; [apply lookup_empty | exact Hnot]. }
    by rewrite Hnone.
Qed.

Lemma join_follows_the_report_witness :
  valid_campaigns_of {["A" := Some 100%Q]} 0 0 [row "B" 10 5]
  = List.map (campaign_of {["A" := Some 100%Q]})
      (List.filter (eligible 0 0) [row "B" 10 5]) /\
  In (campaign_of {["A" := Some 100%Q]} (row "B" 10 5))
     (valid_campaigns_of {["A" := Some 100%Q]} 0 0 [row "B" 10 5]) /\
  budget (campaign_of {["A" := Some 100%Q]} (row "B" 10 5)) = None.
Proof.
  destruct (join_follows_the_report [entry "A" 100] ["A"] {["A" := Some 100%Q]} 0 0
              [row "B" 10 5] eq_refl eq_refl) as (Heq & _ & _ & _ & Hkept & Hnone).
  split; [exact Heq |]. split.
  - apply Hkept; [simpl; tauto | reflexivity | reflexivity].
  - apply (Hnone (row "B" 10 5) "B"); [reflexivity |].
    simpl. intros [[=] | []].
Defined.

(** ** get_campaign_performance as a whole *)

Section FetchFacts.
Context `{Platform}.

Lemma get_campaigns_ok (depth : nat) (c : Client) (data : Response) (w : World) :
  token_stale (self c) (utcnow (net c)) = false ->
  session_request (campaigns_request (self c)) (net c) = (inr data, w) ->
  code_is_zero data = true ->
  get_campaigns (S (S depth)) c
  = (Ret (list_of data), mkClient (self c) w (wire c ++ [campaigns_request (self c)])).
Proof.
  intros Hfresh Hreply Hcode.
  unfold get_campaigns, try_except, bind at 1, gets at 1, bind at 1.
  rewrite (make_request_fresh depth c _ _ _ _ Hfresh).
  fold (campaigns_request (self c)). rewrite Hreply, Hcode. reflexivity.
Qed.

(** When both calls succeed, the method returns the filtered join of the two
    replies, having sent the campaign-list request and then the report
    request for the ids of the list. *)
Lemma get_campaign_performance_ok (depth : nat) (days : Z)
    (min_spend min_payment_rate : Q) (c : Client)
    (listing report : Response) (w1 w2 : World)
    (id : string) (ids : list string) (campaign_budgets : gmap string (option Q)) :
  token_stale (self c) (utcnow (net c)) = false ->
  session_request (campaigns_request (self c)) (net c) = (inr listing, w1) ->
  code_is_zero listing = true ->
  campaign_ids_of (list_of listing) = Ret (id :: ids) ->
  campaign_budgets_of (list_of listing) ∅ = Ret campaign_budgets ->
  token_stale (self c) (utcnow w1) = false ->
  let req :=
    report_request (self c) (date_of (utcnow (net c)) - days) (date_of (utcnow (net c)))
      (id :: ids) in
  session_request req w1 = (inr report, w2) ->
  code_is_zero report = true ->
  get_campaign_performance (S (S depth)) days min_spend min_payment_rate c
  = (Ret (valid_campaigns_of campaign_budgets min_spend min_payment_rate (list_of report)),
     mkClient (self c) w2 (wire c ++ [campaigns_request (self c); req])).
Proof.
  intros Hfresh Hlisting Hcode1 Hids Hbudgets Hfresh1 req Hreport Hcode2.
  unfold get_campaign_performance, try_except, bind at 1, gets at 1, bind at 1.
  rewrite (get_campaigns_ok depth c listing w1 Hfresh Hlisting Hcode1).
  unfold bind at 1, lift_outcome at 1. rewrite Hids.
  unfold bind at 1, lift_outcome at 1. rewrite Hbudgets.
  unfold bind at 1, gets at 1, bind at 1.
  rewrite make_request_fresh by exact Hfresh1.
  cbn [self net wire]. fold (report_request (self c)
                               (date_of (utcnow (net c)) - days)
                               (date_of (utcnow (net c))) (id :: ids)).
  fold req. rewrite Hreport, Hcode2. cbn [negb]. unfold ret.
  by rewrite <- app_assoc.
Qed.

(** Whatever the platform answers, a list the method returns is empty or is
    the filtered join of some budgets dict and some report rows. *)
Lemma get_campaign_performance_inv (depth : nat) (days : Z)
    (min_spend min_payment_rate : Q) (c c' : Client) (cs : list Campaign) :
  get_campaign_performance depth days min_spend min_payment_rate c = (Ret cs, c') ->
  cs = [] \/
  exists campaign_budgets stats_list,
    cs = valid_campaigns_of campaign_budgets min_spend min_payment_rate stats_list.
Proof.
  unfold get_campaign_performance, try_except, bind at 1, gets at 1, bind at 1.
  destruct (get_campaigns depth c) as [[campaigns | e] c1];
    [| destruct (is_TikTokAPIError e); discriminate].
  unfold bind at 1, lift_outcome at 1.
  destruct (campaign_ids_of campaigns) as [ids | e];
    [| destruct (is_TikTokAPIError e); discriminate].
  unfold bind at 1, lift_outcome at 1.
  destruct (campaign_budgets_of campaigns ∅) as [campaign_budgets | e];
    [| destruct (is_TikTokAPIError e); discriminate].
  destruct ids as [| id ids].
  - intros [= <- _]. by left.
  - unfold bind at 1, gets at 1, bind at 1.
    destruct (_make_request depth _ _ _ _ _ c1) as [[data | e] c2];
      [| destruct (is_TikTokAPIError e); discriminate].
    destruct (code_is_zero data); cbn [negb]; [| discriminate].
    intros [= <- _]. right. by exists campaign_budgets, (list_of data).
Qed.

(** Every campaign the method returns has spend and payment rate strictly
    above the thresholds it was called with. *)
Lemma get_campaign_performance_thresholds (depth : nat) (days : Z)
    (min_spend min_payment_rate : Q) (c c' : Client) (cs : list Campaign) :
  get_campaign_performance depth days min_spend min_payment_rate c = (Ret cs, c') ->
  forall campaign,
    In campaign cs ->
    (min_spend < spend campaign)%Q /\
    (min_payment_rate < total_complete_payment_rate campaign)%Q.
Proof.
  intros Hrun campaign Hin.
  destruct (get_campaign_performance_inv _ _ _ _ _ _ _ Hrun)
    as [-> | (campaign_budgets & stats_list & ->)]; [destruct Hin |].
  by apply valid_campaigns_of_thresholds in Hin.
Qed.

End FetchFacts.

(** A fetch with [min_spend = 100]: the row at the threshold is left out,
    the row one unit above is returned, joined with its budget. *)
Example fetch_at_the_threshold :
  (@get_campaign_performance scripted 2 30 100 0
     (scripted_client api_with_token
        [ok_list [entry "A" 80; entry "B" 40];
         ok_list [row "A" 100 5; row "B" 101 5]])).1
  = Ret [mkCampaign (Some "B") 101 5 (Some 40%Q)].
Proof. vm_compute. reflexivity. Qed.

(** An empty campaign list ends the fetch before the report is requested. *)
Example fetch_without_campaigns :
  @get_campaign_performance scripted 2 30 0 0
    (scripted_client api_with_token [ok_list []; ok_list [row "A" 100 5]])
  = (Ret [],
     @mkClient scripted api_with_token (0, [ok_list [row "A" 100 5]])
       [campaigns_request api_with_token]).
Proof. vm_compute. reflexivity. Qed.

(** ** The campaign loop *)

Lemma retry_events_silent (tr : list event) :
  Forall is_retry_event tr -> reports tr = [] /\ policy_calls tr = [].
Proof.
  induction 1 as [| ev tr Hev _ [IHr IHc]]; [done |].
  change (reports (ev :: tr)) with (from_option (fun id => id :: reports tr) (reports tr)
                                      (report_id ev)).
  change (policy_calls (ev :: tr))
    with (from_option (fun c => c :: policy_calls tr) (policy_calls tr)
            (match ev with Invoked c => Some c | _ => None end)).
  rewrite IHr, IHc.
  destruct ev as [[] | |]; simpl in *; done.
Qed.

Lemma reports_app (tr1 tr2 : list event) : reports (tr1 ++ tr2) = reports tr1 ++ reports tr2.
Proof. apply omap_app. Qed.

Lemma policy_calls_app (tr1 tr2 : list event) :
  policy_calls (tr1 ++ tr2) = policy_calls tr1 ++ policy_calls tr2.
Proof. apply omap_app. Qed.

Section LoopFacts.
Context `{Platform}.

(** The body of the loop, by cases: what it adds to the trace and what it
    leaves of the client.  It returns normally in every case. *)
Lemma process_campaign_eq (depth : nat) (campaign : Campaign) (cl : Client)
    (tr : list event) :
  process_campaign depth campaign (cl, tr) =
  match calculate_roas campaign with
  | Raise e =>
      (Ret tt, (cl, tr ++ [Invoked (Call_calculate_roas campaign);
                           Printed (failure_line campaign e)]))
  | Ret roas =>
      match budget campaign with
      | None =>
          (Ret tt, (cl, tr ++ [Invoked (Call_calculate_roas campaign);
                               Invoked (Call_calculate_adjustment_factor campaign roas);
                               Printed (LSkipping (campaign_id campaign))]))
      | Some current_budget =>
          let new_budget :=
            calculate_new_budget current_budget (calculate_adjustment_factor roas) in
          if Qeq_bool new_budget current_budget then
            (Ret tt, (cl, tr ++ calls_before_update campaign roas current_budget ++
                                [Printed (LNoChange (campaign_id campaign) roas)]))
          else
            match retry client_sleep
                    (update_campaign_budget depth (campaign_id campaign) new_budget)
                    2 300 is_TikTokAPIError
                    (cl, tr ++ calls_before_update campaign roas current_budget) with
            | (Ret _, (cl', tr')) =>
                (Ret tt, (cl', tr' ++ [Printed (LUpdated (campaign_id campaign)
                                                  current_budget new_budget)]))
            | (Raise e, (cl', tr')) =>
                (Ret tt, (cl', tr' ++ [Printed (failure_line campaign e)]))
            end
      end
  end.
Proof.
  unfold process_campaign, try_except2, bind at 1, emit at 1, modify at 1.
  cbn [fst snd]. unfold bind at 1, lift_outcome at 1.
  destruct (calculate_roas campaign) as [roas | e] eqn:Hroas.
  - unfold bind at 1, emit at 1, modify at 1. cbn [fst snd].
    rewrite <- app_assoc. cbn [app].
    destruct (budget campaign) as [current_budget |].
    + unfold bind at 1, emit at 1, modify at 1. cbn [fst snd].
      rewrite <- app_assoc. cbn [app].
      cbv zeta.
      destruct (Qeq_bool _ current_budget); cbn [negb].
      * unfold print, emit, modify. cbn [fst snd]. unfold calls_before_update.
        rewrite <- app_assoc. reflexivity.
      * unfold bind at 1. unfold calls_before_update.
        destruct (retry client_sleep _ 2 300 is_TikTokAPIError _)
          as [[r | e] [cl' tr']].
        -- unfold print, emit, modify. reflexivity.
        -- unfold failure_line, is_Exception, print, emit, modify.
           destruct (is_TikTokAPIError e); reflexivity.
    + unfold print, emit, modify. cbn [fst snd]. rewrite <- app_assoc. reflexivity.
  - unfold calculate_roas in Hroas.
    destruct (Qeq_bool (spend campaign) 0); [| discriminate].
    injection Hroas as <-. unfold print, emit, modify, failure_line.
    cbn [fst snd is_TikTokAPIError is_Exception].
    rewrite <- app_assoc. reflexivity.
Qed.

End LoopFacts.

Section LoopSummary.
Context `{Platform}.

Lemma failure_line_report (campaign : Campaign) (e : exn) :
  reports [Printed (failure_line campaign e)] = [campaign_id campaign].
Proof. unfold failure_line. by destruct (is_TikTokAPIError e). Qed.

(** One campaign: the body returns, prints one status line, for this
    campaign, and calls the policy for this campaign only, the new budget
    only from a known budget.  A campaign with a non-zero spend and no budget
    gets the ROAS and the factor computed and is then skipped. *)
Lemma process_campaign_summary (depth : nat) (campaign : Campaign) (cl : Client)
    (tr : list event) :
  exists cl' new,
    process_campaign depth campaign (cl, tr) = (Ret tt, (cl', tr ++ new)) /\
    reports new = [campaign_id campaign] /\
    Forall (fun call => call_campaign call = campaign /\ call_known_budget call)
      (policy_calls new) /\
    (Qeq_bool (spend campaign) 0 = false ->
     budget campaign = None ->
     In (Call_calculate_roas campaign) (policy_calls new) /\
     In (Printed (LSkipping (campaign_id campaign))) new).
Proof.
  rewrite process_campaign_eq. unfold calculate_roas.
  destruct (Qeq_bool (spend campaign) 0) eqn:Hspend.
  - eexists cl, _. split; [reflexivity |]. split; [reflexivity |].
    split; [| discriminate]. repeat constructor.
  - set (roas := (total_complete_payment_rate campaign / spend campaign)%Q).
    destruct (budget campaign) as [current_budget |] eqn:Hbudget.
    + cbv zeta.
      destruct (Qeq_bool _ current_budget).
      * eexists cl, _. split; [reflexivity |]. split; [reflexivity |].
        split; [| discriminate]. repeat constructor; done.
      * destruct (retry_from_trace_grows client_sleep
                    (update_campaign_budget depth (campaign_id campaign)
                       (calculate_new_budget current_budget
                          (calculate_adjustment_factor roas)))
                    2 300 is_TikTokAPIError 3 0 cl
                    (tr ++ calls_before_update campaign roas current_budget) eq_refl)
          as (o & cl' & tr' & Hretry & Hsilent & _).
        unfold retry. rewrite Hretry.
        destruct (retry_events_silent tr' Hsilent) as [Hr Hc].
        destruct o as [r | e].
        -- exists cl', (calls_before_update campaign roas current_budget ++ tr' ++
                        [Printed (LUpdated (campaign_id campaign) current_budget
                                    (calculate_new_budget current_budget
                                       (calculate_adjustment_factor roas)))]).
           split; [by rewrite <- !app_assoc |].
           rewrite !reports_app, !policy_calls_app, Hr, Hc.
           split; [reflexivity |]. split; [| discriminate].
           repeat constructor; done.
        -- exists cl', (calls_before_update campaign roas current_budget ++ tr' ++
                        [Printed (failure_line campaign e)]).
           split; [by rewrite <- !app_assoc |].
           rewrite !reports_app, !policy_calls_app, Hr, Hc.
           split; [| split; [| discriminate]].
           ++ by rewrite failure_line_report.
           ++ unfold failure_line. destruct (is_TikTokAPIError e);
                repeat constructor; done.
    + eexists cl, _. split; [reflexivity |]. split; [reflexivity |].
      split; [repeat constructor |].
      intros _ _. split; simpl; tauto.
Qed.

(** The whole loop: it returns, and its status lines are one per campaign,
    in the order of the list. *)
Lemma process_campaigns_summary (depth : nat) (campaigns : list Campaign) :
  forall (cl : Client) (tr : list event),
    exists cl' new,
      process_campaigns depth campaigns (cl, tr) = (Ret tt, (cl', tr ++ new)) /\
      reports new = List.map campaign_id campaigns /\
      Forall (fun call => In (call_campaign call) campaigns /\ call_known_budget call)
        (policy_calls new) /\
      (forall campaign,
         In campaign campaigns ->
         Qeq_bool (spend campaign) 0 = false ->
         budget campaign = None ->
         In (Call_calculate_roas campaign) (policy_calls new) /\
         In (Printed (LSkipping (campaign_id campaign))) new).
Proof.
  induction campaigns as [| campaign rest IH]; intros cl tr.
  - exists cl, []. rewrite app_nil_r. repeat split; done.
  - destruct (process_campaign_summary depth campaign cl tr)
      as (cl1 & new1 & Hrun1 & Hrep1 & Hcalls1 & Hskip1).
    destruct (IH cl1 (tr ++ new1)) as (cl2 & new2 & Hrun2 & Hrep2 & Hcalls2 & Hskip2).
    exists cl2, (new1 ++ new2).
    cbn [process_campaigns]. unfold bind at 1. rewrite Hrun1, Hrun2.
    rewrite reports_app, policy_calls_app, Hrep1, Hrep2, app_assoc.
    split; [reflexivity |]. split; [reflexivity |]. split.
    + apply Forall_app. split.
      * eapply Forall_impl; [exact Hcalls1 |]. intros call [-> Hk]. simpl. tauto.
      * eapply Forall_impl; [exact Hcalls2 |]. intros call [Hin Hk]. simpl. tauto.
    + intros c [<- | Hin] Hs Hb.
      * destruct (Hskip1 Hs Hb). split; apply in_or_app; by left.
      * destruct (Hskip2 c Hin Hs Hb). split; apply in_or_app; by right.
Qed.

End LoopSummary.

Section RunFacts.
Context `{Platform}.

Lemma Qeq_bool_positive (q : Q) : (0 < q)%Q -> Qeq_bool q 0 = false.
Proof.
  intros Hpos. destruct (Qeq_bool q 0) eqn:Heq; [| reflexivity].
  apply Qeq_bool_eq in Heq. rewrite Heq in Hpos. by apply Qlt_irrefl in Hpos.
Qed.

Lemma process_campaigns_app (depth : nat) (before after : list Campaign) :
  forall st st1,
    process_campaigns depth before st = (Ret tt, st1) ->
    process_campaigns depth (before ++ after) st = process_campaigns depth after st1.
Proof.
  induction before as [| campaign rest IH]; intros [cl tr] st1;
    cbn [app process_campaigns].
  - by intros [= <-].
  - destruct (process_campaign_summary depth campaign cl tr) as (cl' & new & Hrun & _).
    unfold bind. rewrite Hrun. apply IH.
Qed.

Lemma process_campaign_handled (depth : nat) (campaign : Campaign) (cl1 cl2 : Client)
    (tr1 new2 : list event) :
  process_campaign depth campaign (cl1, tr1) = (Ret tt, (cl2, tr1 ++ new2)) ->
  campaign_handled depth campaign cl1 tr1 cl2 new2.
Proof.
  rewrite process_campaign_eq. unfold campaign_handled.
  destruct (calculate_roas campaign) as [roas | e].
  - destruct (budget campaign) as [current_budget |].
    + cbv zeta. destruct (Qeq_bool _ current_budget).
      * intros [= <- Htr]. by apply app_inv_head in Htr as <-.
      * destruct (retry client_sleep _ 2 300 is_TikTokAPIError _) as [[r | e] [cl_u tr_u]];
          by intros [= <- ->].
    + intros [= <- Htr]. by apply app_inv_head in Htr as <-.
  - intros [= <- Htr]. by apply app_inv_head in Htr as <-.
Qed.

(** C6. The loop over any list of campaigns returns normally.  Wherever a
    campaign stands in the list, the loop reaches it, its body returns
    normally having handled it by the cases of [campaign_handled] and printed
    one status line for it, and the loop goes on with the campaigns after it,
    from the state the body left, to the end of the list, each with its own
    status line.  In particular, when the update of the campaign, made
    through [retry], ends in an exception, the line printed for the campaign
    reports that exception and the campaigns after it are handled in the same
    way, theirs being positions of the list too. *)
Theorem campaign_loop_survives_failures (depth : nat) (campaigns : list Campaign)
    (cl : Client) (tr : list event) :
  exists cl_end tr_end,
    process_campaigns depth campaigns (cl, tr) = (Ret tt, (cl_end, tr_end)) /\
    forall before campaign after,
      campaigns = before ++ campaign :: after ->
      exists cl1 tr1 cl2 new2 new3,
        process_campaigns depth before (cl, tr) = (Ret tt, (cl1, tr1)) /\
        process_campaign depth campaign (cl1, tr1) = (Ret tt, (cl2, tr1 ++ new2)) /\
        process_campaigns depth after (cl2, tr1 ++ new2) = (Ret tt, (cl_end, tr_end)) /\
        tr_end = (tr1 ++ new2) ++ new3 /\
        reports new2 = [campaign_id campaign] /\
        reports new3 = List.map campaign_id after /\
        campaign_handled depth campaign cl1 tr1 cl2 new2 /\
        forall roas current_budget e cl_u tr_u,
          calculate_roas campaign = Ret roas ->
          budget campaign = Some current_budget ->
          Qeq_bool
            (calculate_new_budget current_budget (calculate_adjustment_factor roas))
            current_budget = false ->
          retry client_sleep
            (update_campaign_budget depth (campaign_id campaign)
               (calculate_new_budget current_budget (calculate_adjustment_factor roas)))
            2 300 is_TikTokAPIError
            (cl1, tr1 ++ calls_before_update campaign roas current_budget)
          = (Raise e, (cl_u, tr_u)) ->
          cl2 = cl_u /\ tr1 ++ new2 = tr_u ++ [Printed (failure_line campaign e)].
Proof.
  destruct (process_campaigns_summary depth campaigns cl tr)
    as (cl_end & new & Hrun & _).
  exists cl_end, (tr ++ new). split; [exact Hrun |].
  intros before campaign after ->.
  destruct (process_campaigns_summary depth before cl tr)
    as (cl1 & new1 & Hrun1 & _).
  destruct (process_campaign_summary depth campaign cl1 (tr ++ new1))
    as (cl2 & new2 & Hrun2 & Hrep2 & _).
  destruct (process_campaigns_summary depth after cl2 ((tr ++ new1) ++ new2))
    as (cl3 & new3 & Hrun3 & Hrep3 & _).
  rewrite (process_campaigns_app depth before (campaign :: after) _ _ Hrun1) in Hrun.
  cbn [process_campaigns] in Hrun. unfold bind at 1 in Hrun.
  rewrite Hrun2, Hrun3 in Hrun. injection Hrun as <- Hend.
  exists cl1, (tr ++ new1), cl2, new2, new3.
  split; [exact Hrun1 |]. split; [exact Hrun2 |].
  split; [by rewrite <- Hend |]. split; [by rewrite <- Hend |].
  split; [exact Hrep2 |]. split; [exact Hrep3 |].
  pose proof (process_campaign_handled depth campaign cl1 cl2 (tr ++ new1) new2 Hrun2)
    as Hhandled.
  split; [exact Hhandled |].
  intros roas current_budget e cl_u tr_u Hroas Hbudget Hdiff Hfail.
  unfold campaign_handled in Hhandled. rewrite Hroas, Hbudget in Hhandled.
  cbv zeta in Hhandled. by rewrite Hdiff, Hfail in Hhandled.
Qed.

(** With the client as [main] builds it, no token is cached: the first step
    ends in [RecursionError], which no [except] clause of [main] catches.
    Nothing is printed and nothing is sent. *)
Lemma main_never_authenticates (APP_ID AUTH_CODE SECRET : string) (depth : nat)
    (w : World) :
  main APP_ID AUTH_CODE SECRET depth w
  = (Raise RecursionError,
     (mkClient (new_api APP_ID AUTH_CODE SECRET ADVERTISER_ID) w [], [])).
Proof.
  unfold main, main_steps, bind at 1, get_token_step, try_except at 1, bind at 1, retry.
  rewrite retry_from_eq.
  destruct (Z_le_dec 0 2) as [_ | Hle]; [| lia].
  destruct (stale_token_cycle depth
              (mkClient (new_api APP_ID AUTH_CODE SECRET ADVERTISER_ID) w []) eq_refl)
    as (_ & -> & _).
  reflexivity.
Qed.

End RunFacts.

(** C4, as the claim states it, fails: in this run the report has a row for
    campaign "B", which the campaign list does not have, and [calculate_roas]
    is invoked on the resulting Campaign, whose budget is [None]. *)
Lemma policy_sees_unknown_budget :
  (@main_steps scripted 3
     (scripted_client api_with_token
        [token_ok "tok2" [ADVERTISER_ID]; ok_list [entry "A" 100];
         ok_list [row "B" 10 5]], [])).1 = Ret tt /\
  In (Invoked (Call_calculate_roas (mkCampaign (Some "B") 10 5 None)))
     (@main_steps scripted 3
        (scripted_client api_with_token
           [token_ok "tok2" [ADVERTISER_ID]; ok_list [entry "A" 100];
            ok_list [row "B" 10 5]], [])).2.2 /\
  budget (mkCampaign (Some "B") 10 5 None) = None.
Proof.
  split; [vm_compute; reflexivity |]. split; [| reflexivity].
  vm_compute. right. right. right. left. reflexivity.
Qed.

(** A run in which the update of the first campaign is refused three times
    (two retries, 300 seconds apart) and the second campaign is then updated. *)
Example partial_failure_run :
  (@main_steps scripted 3
     (scripted_client api_with_token
        [token_ok "tok2" [ADVERTISER_ID];
         ok_list [entry "A" 80; entry "B" 40];
         ok_list [row "A" 100 200; row "B" 100 50];
         update_refused; inl "timeout"; update_refused; update_ok], [])).2.2
  = [Printed (LAccessToken (PStr "tok2"));
     Printed (LAdvertiserIdValid (PBool true));
     Printed (LValidIds (PList [ADVERTISER_ID]))] ++
    calls_before_update (mkCampaign (Some "A") 100 200 (Some 80%Q)) (200 / 100) 80 ++
    [Printed (LRetrying
       "Error updating campaign A budget: Failed to update campaign budget: budget locked"
       300 1 2);
     Slept 300;
     Printed (LRetrying
       "Error updating campaign A budget: API request failed: timeout" 300 2 2);
     Slept 300;
     Printed (LErrorUpdating (Some "A")
       "Error updating campaign A budget: Failed to update campaign budget: budget locked")] ++
    calls_before_update (mkCampaign (Some "B") 100 50 (Some 40%Q)) (50 / 100) 40 ++
    [Printed (LUpdated (Some "B") 40 50)].
Proof. vm_compute. reflexivity. Qed.

(** ** The run as a whole: which values reach the policy *)

Section RunLogic.
Context `{Platform}.
Variable E : policy_call -> Prop.

Lemma meets_ret {A : Type} (a : A) (P : A -> Prop) :
  P a -> run_meets (ret a) E P.
Proof.
  intros HP cl tr. exists (Ret a), cl, []. rewrite app_nil_r.
  repeat split; [constructor |]. by intros a' [= <-].
Qed.

Lemma meets_raise {A : Type} (e : exn) (P : A -> Prop) :
  run_meets (raise e) E P.
Proof.
  intros cl tr. exists (Raise e), cl, []. rewrite app_nil_r.
  repeat split; [constructor | discriminate].
Qed.

Lemma meets_print (l : line) : run_meets (print l) E (fun _ => True).
Proof.
  intros cl tr. exists (Ret tt), cl, [Printed l].
  repeat split. constructor.
Qed.

Lemma meets_bind {A B : Type} (m : M (Client * list event) A)
    (k : A -> M (Client * list event) B) (P : A -> Prop) (Q : B -> Prop) :
  run_meets m E P ->
  (forall a, P a -> run_meets (k a) E Q) ->
  run_meets (bind m k) E Q.
Proof.
  intros Hm Hk cl tr. destruct (Hm cl tr) as (o & cl1 & new1 & Hrun & Hcalls & Hpost).
  unfold bind. rewrite Hrun. destruct o as [a | e].
  - destruct (Hk a (Hpost a eq_refl) cl1 (tr ++ new1))
      as (o2 & cl2 & new2 & Hrun2 & Hcalls2 & Hpost2).
    exists o2, cl2, (new1 ++ new2). rewrite Hrun2, app_assoc.
    split; [reflexivity |]. split; [| exact Hpost2].
    rewrite policy_calls_app. by apply Forall_app.
  - exists (Raise e), cl1, new1. repeat split; [exact Hcalls | discriminate].
Qed.

Lemma meets_try_except {A : Type} (m : M (Client * list event) A)
    (catches : exn -> bool) (handler : exn -> M (Client * list event) A)
    (P : A -> Prop) :
  run_meets m E P ->
  (forall e, run_meets (handler e) E P) ->
  run_meets (try_except m catches handler) E P.
Proof.
  intros Hm Hh cl tr. destruct (Hm cl tr) as (o & cl1 & new1 & Hrun & Hcalls & Hpost).
  unfold try_except. rewrite Hrun. destruct o as [a | e].
  - exists (Ret a), cl1, new1. by repeat split.
  - destruct (catches e).
    + destruct (Hh e cl1 (tr ++ new1)) as (o2 & cl2 & new2 & Hrun2 & Hcalls2 & Hpost2).
      exists o2, cl2, (new1 ++ new2). rewrite Hrun2, app_assoc.
      split; [reflexivity |]. split; [| exact Hpost2].
      rewrite policy_calls_app. by apply Forall_app.
    + exists (Raise e), cl1, new1. repeat split; [exact Hcalls | discriminate].
Qed.

Lemma meets_subscript_result (token_info : option (gmap string pyval)) (key : string) :
  run_meets (subscript_result token_info key) E (fun _ => True).
Proof.
  destruct token_info as [d |]; [| apply meets_raise].
  unfold subscript_result, subscript. destruct (d !! key); [by apply meets_ret |].
  apply meets_raise.
Qed.

(** [retry] makes no policy call, and hands on a value of the operation. *)
Lemma meets_retry {A : Type} (func : M Client A) (max_retries delay : Z)
    (exception_types : exn -> bool) (P : A -> Prop) :
  (forall c c' a, func c = (Ret a, c') -> P a) ->
  run_meets (retry client_sleep func max_retries delay exception_types) E
    (fun r => forall a, r = Some a -> P a).
Proof.
  intros Hfunc cl tr.
  destruct (retry_from_trace_grows client_sleep func max_retries delay exception_types
              (Z.to_nat (max_retries + 1 - 0)) 0 cl tr eq_refl)
    as (o & cl' & new & Hrun & Hsilent & Hval).
  exists o, cl', new. split; [exact Hrun |]. split.
  - destruct (retry_events_silent new Hsilent) as [_ ->]. constructor.
  - intros r -> a ->. destruct (Hval a eq_refl) as (c0 & Hc0). by eapply Hfunc.
Qed.

End RunLogic.

Section RunFacts2.
Context `{Platform}.

Lemma get_token_step_meets (depth : nat) :
  run_meets (get_token_step depth) policy_input_ok (fun _ => True).
Proof.
  unfold get_token_step. apply meets_try_except.
  - eapply meets_bind; [apply (meets_retry _ _ _ _ _ (fun _ => True)); done |].
    intros token_info _.
    repeat (eapply meets_bind;
            [first [apply meets_subscript_result | apply meets_print] |]; intros ? _).
    by apply meets_ret.
  - intros e. eapply meets_bind; [apply meets_print |]. intros _ _. by apply meets_ret.
Qed.

(** The campaigns step 2 hands to the loop all have spend > 0. *)
Lemma get_performance_step_meets (depth : nat) :
  run_meets (get_performance_step depth) policy_input_ok
    (fun fetched =>
       forall campaigns, fetched = Some campaigns ->
       forall campaign, In campaign campaigns -> (0 < spend campaign)%Q).
Proof.
  unfold get_performance_step. apply meets_try_except.
  - eapply meets_bind.
    + apply (meets_retry _ _ _ _ _
               (fun campaigns => forall campaign, In campaign campaigns ->
                                 (0 < spend campaign)%Q)).
      intros c c' cs Hfetch campaign Hin.
      by destruct (get_campaign_performance_thresholds _ _ _ _ _ _ _ Hfetch _ Hin).
    + intros [[| campaign cs] |] Hpost.
      * eapply meets_bind; [apply meets_print |]. intros _ _. by apply meets_ret.
      * apply meets_ret. intros campaigns [= <-]. by apply Hpost.
      * eapply meets_bind; [apply meets_print |]. intros _ _. by apply meets_ret.
  - intros e. eapply meets_bind; [apply meets_print |]. intros _ _. by apply meets_ret.
Qed.

Lemma process_campaigns_meets (depth : nat) (campaigns : list Campaign) :
  (forall campaign, In campaign campaigns -> (0 < spend campaign)%Q) ->
  run_meets (process_campaigns depth campaigns) policy_input_ok (fun _ => True).
Proof.
  intros Hspend cl tr.
  destruct (process_campaigns_summary depth campaigns cl tr)
    as (cl' & new & Hrun & _ & Hcalls & _).
  exists (Ret tt), cl', new. split; [exact Hrun |]. split; [| done].
  eapply Forall_impl; [exact Hcalls |]. intros call [Hin Hk].
  split; [by apply Hspend | exact Hk].
Qed.

(** C4 (amended). In every run, from any client, every campaign on which a
    policy function is invoked has spend > 0, and [calculate_new_budget] is
    invoked only with the known budget of its campaign.  A campaign whose
    budget is unknown is skipped before [calculate_new_budget], after
    [calculate_roas] and [calculate_adjustment_factor] have been invoked
    on it. *)
Theorem policy_call_inputs (depth : nat) :
  (forall (cl : Client) (tr : list event),
     exists o cl' new,
       main_steps depth (cl, tr) = (o, (cl', tr ++ new)) /\
       Forall policy_input_ok (policy_calls new)) /\
  (forall (campaign : Campaign) (cl : Client) (tr : list event),
     (0 < spend campaign)%Q ->
     budget campaign = None ->
     process_campaign depth campaign (cl, tr)
     = (Ret tt,
        (cl, tr ++ [Invoked (Call_calculate_roas campaign);
                    Invoked (Call_calculate_adjustment_factor campaign
                               (total_complete_payment_rate campaign / spend campaign));
                    Printed (LSkipping (campaign_id campaign))]))).
Proof.
  split.
  - assert (Hmain : run_meets (main_steps depth) policy_input_ok (fun _ => True)).
    { unfold main_steps. eapply meets_bind; [apply get_token_step_meets |].
      intros [|] _; [| by apply meets_ret].
      eapply meets_bind; [apply get_performance_step_meets |].
      intros [campaigns |] Hpost; [| by apply meets_ret].
      apply process_campaigns_meets. by apply Hpost. }
    intros cl tr. destruct (Hmain cl tr) as (o & cl' & new & Hrun & Hcalls & _).
    by exists o, cl', new.
  - intros campaign cl tr Hspend Hbudget.
    rewrite process_campaign_eq. unfold calculate_roas.
    by rewrite (Qeq_bool_positive _ Hspend), Hbudget.
Qed.

End RunFacts2.

(** The second part of C4 (amended) on the campaign of the run above. *)
Lemma policy_call_inputs_witness :
  @process_campaign scripted 3 (mkCampaign (Some "B") 10 5 None)
    (scripted_client api_with_token [], [])
  = (Ret tt,
     (scripted_client api_with_token [],
      [] ++ [Invoked (Call_calculate_roas (mkCampaign (Some "B") 10 5 None));
             Invoked (Call_calculate_adjustment_factor (mkCampaign (Some "B") 10 5 None)
                        (5 / 10));
             Printed (LSkipping (Some "B"))])).
Proof.
  destruct (@policy_call_inputs scripted 3) as [_ Hskip].
  apply (Hskip (mkCampaign (Some "B") 10 5 None)); reflexivity.
Defined.

(** * Further properties of the code *)

(** ** The budget policy *)

Lemma raw_adjustment_monotone (roas1 roas2 : Q) :
  (roas1 <= roas2)%Q ->
  ((roas1 - TARGET_ROAS) / TARGET_ROAS <= (roas2 - TARGET_ROAS) / TARGET_ROAS)%Q.
Proof.
  intros Hle. unfold Qdiv. apply Qmult_le_compat_r; [| discriminate].
  unfold TARGET_ROAS. lra.
Qed.

(** X1. The adjustment factor does not decrease when the ROAS grows. *)
Theorem calculate_adjustment_factor_monotone (roas1 roas2 : Q) :
  (roas1 <= roas2)%Q ->
  (calculate_adjustment_factor roas1 <= calculate_adjustment_factor roas2)%Q.
Proof.
  intros Hle. apply raw_adjustment_monotone in Hle.
  unfold calculate_adjustment_factor.
  set (raw1 := ((roas1 - TARGET_ROAS) / TARGET_ROAS)%Q) in *.
  set (raw2 := ((roas2 - TARGET_ROAS) / TARGET_ROAS)%Q) in *.
  pose proof MAX_ADJUSTMENT_sign as Hsign.
  destruct (py_min_cases raw1 MAX_ADJUSTMENT) as [[H1 ->] | [H1 ->]];
    destruct (py_min_cases raw2 MAX_ADJUSTMENT) as [[H2 ->] | [H2 ->]];
    match goal with
    | |- (py_max ?a ?m <= py_max ?b ?m)%Q =>
        destruct (py_max_cases a m) as [[H3 E3] | [H3 E3]];
        destruct (py_max_cases b m) as [[H4 E4] | [H4 E4]]
    end; rewrite E3, ?E4; lra.
Qed.

Lemma calculate_adjustment_factor_monotone_witness :
  (calculate_adjustment_factor 1 <= calculate_adjustment_factor 2)%Q.
Proof. apply (calculate_adjustment_factor_monotone 1 2). discriminate. Defined.

(** X2. For a budget that is at least 0 and a factor within
    [-MAX_ADJUSTMENT, +MAX_ADJUSTMENT], the new budget is at least MIN_BUDGET;
    it is the adjusted budget itself whenever that is at least MIN_BUDGET. *)
Theorem calculate_new_budget_floor (current_budget adjustment_factor : Q) :
  (0 <= current_budget)%Q ->
  (- MAX_ADJUSTMENT <= adjustment_factor)%Q ->
  (adjustment_factor <= MAX_ADJUSTMENT)%Q ->
  (MIN_BUDGET <= calculate_new_budget current_budget adjustment_factor)%Q /\
  ((MIN_BUDGET <= current_budget * (1 + adjustment_factor))%Q ->
   calculate_new_budget current_budget adjustment_factor
   = (current_budget * (1 + adjustment_factor))%Q).
Proof.
  intros _ _ _. unfold calculate_new_budget.
  destruct (py_max_cases (current_budget * (1 + adjustment_factor)) MIN_BUDGET)
    as [[Hx ->] | [Hx ->]].
  - split; [lra |]. intros Hge. lra.
  - split; [exact Hx | reflexivity].
Qed.

Lemma calculate_new_budget_floor_witness :
  (MIN_BUDGET <= calculate_new_budget 40 (- (1 # 2)))%Q /\
  ((MIN_BUDGET <= 100 * (1 + (1 # 2)))%Q ->
   calculate_new_budget 100 (1 # 2) = (100 * (1 + (1 # 2)))%Q).
Proof.
  split.
  - apply (calculate_new_budget_floor 40 (- (1 # 2))); discriminate.
  - apply (calculate_new_budget_floor 100 (1 # 2)); discriminate.
Defined.

(** X3. One run changes a budget by at most three quarters of it, the
    floor apart: for a budget that is at least 0 and a ROAS that is at least
    0, the new budget is at least a quarter of the current one, and is
    MIN_BUDGET or at most seven quarters of the current one. *)
Theorem budget_step_is_bounded (current_budget roas : Q) :
  (0 <= current_budget)%Q ->
  (0 <= roas)%Q ->
  let new_budget :=
    calculate_new_budget current_budget (calculate_adjustment_factor roas) in
  ((1 # 4) * current_budget <= new_budget)%Q /\
  (new_budget = MIN_BUDGET \/ (new_budget <= (7 # 4) * current_budget)%Q).
Proof.
  intros Hb _ new_budget. subst new_budget.
  assert (Hf : (- (3 # 4) <= calculate_adjustment_factor roas)%Q /\
               (calculate_adjustment_factor roas <= 3 # 4)%Q).
  { unfold calculate_adjustment_factor.
    set (raw := ((roas - TARGET_ROAS) / TARGET_ROAS)%Q).
    change MAX_ADJUSTMENT with (3 # 4).
    destruct (py_min_cases raw (3 # 4)) as [[H1 ->] | [H1 ->]];
      match goal with
      | |- (_ <= py_max ?a ?m)%Q /\ _ =>
          destruct (py_max_cases a m) as [[H3 ->] | [H3 ->]]
      end; split; lra. }
  destruct Hf as [Hlo Hhi]. unfold calculate_new_budget.
  set (f := calculate_adjustment_factor roas) in *.
  destruct (py_max_cases (current_budget * (1 + f)) MIN_BUDGET) as [[Hx ->] | [Hx ->]].
  - split; [nra | by left].
  - split; [nra | right; nra].
Qed.

Lemma budget_step_is_bounded_witness :
  ((1 # 4) * 80 <= calculate_new_budget 80 (calculate_adjustment_factor 2))%Q /\
  (calculate_new_budget 80 (calculate_adjustment_factor 2) = MIN_BUDGET \/
   (calculate_new_budget 80 (calculate_adjustment_factor 2) <= (7 # 4) * 80)%Q).
Proof. apply (budget_step_is_bounded 80 2); discriminate. Defined.

(** ** retry *)

Lemma retry_from_recovers {W A : Type} (sleep : Z -> M W unit) (func : M W A)
    (max_retries delay : Z) (exception_types : exn -> bool)
    (k : nat) (w w' : W) (a : A) :
  fails_then_returns sleep func delay exception_types k w a w' ->
  forall (attempt : Z) (tr : list event),
    attempt + Z.of_nat k <= max_retries ->
    exists tr',
      retry_from sleep func max_retries delay exception_types attempt (w, tr)
      = (Ret (Some a), (w', tr ++ tr')) /\
      delays tr' = replicate k delay.
Proof.
  induction 1 as [w w' a Hf | k w w1 w2 w' e a Hf Hex Hpause _ IH]; intros attempt tr Hle;
    rewrite retry_from_eq; (destruct (Z_le_dec attempt max_retries); [| lia]);
    rewrite Hf.
  - exists []. by rewrite app_nil_r.
  - rewrite Hex, Hpause. destruct (Z_gt_dec (attempt + 1) max_retries); [lia |].
    destruct (IH (attempt + 1)
                (tr ++ [Printed (LRetrying (str_exn e) delay (attempt + 1) max_retries);
                        Slept delay])) as (tr' & Hrun & Hdel); [lia |].
    exists ([Printed (LRetrying (str_exn e) delay (attempt + 1) max_retries);
             Slept delay] ++ tr').
    rewrite Hrun, <- app_assoc. split; [reflexivity |].
    change (delays ([Printed (LRetrying (str_exn e) delay (attempt + 1) max_retries);
                     Slept delay] ++ tr')) with (delay :: delays tr').
    by rewrite Hdel.
Qed.

(** X4. An operation that fails k times in a retryable way, each time
    followed by a pause of [delay] that completes, and then returns, run
    under [retry] with [max_retries >= k], makes [retry] return that value
    after exactly k pauses of [delay]. *)
Theorem retry_recovers {W A : Type} (sleep : Z -> M W unit) (func : M W A)
    (max_retries delay : Z) (exception_types : exn -> bool)
    (k : nat) (w w' : W) (a : A) (tr : list event) :
  fails_then_returns sleep func delay exception_types k w a w' ->
  Z.of_nat k <= max_retries ->
  exists tr',
    retry sleep func max_retries delay exception_types (w, tr)
    = (Ret (Some a), (w', tr ++ tr')) /\
    delays tr' = replicate k delay.
Proof.
  intros Hruns Hle. unfold retry.
  apply (retry_from_recovers sleep func max_retries delay exception_types k w w' a Hruns).
  lia.
Qed.

Lemma retry_recovers_witness :
  exists tr',
    retry no_sleep sometimes_fails 2 0 is_ValueError ([], [])
    = (Ret (Some "success"), ([1], [] ++ tr')) /\
    delays tr' = replicate 1 0.
Proof.
  apply (retry_recovers no_sleep sometimes_fails 2 0 is_ValueError 1 [] [1] "success" []);
    [| lia].
  apply (fails_first no_sleep sometimes_fails 0 is_ValueError 0 [] [1] [1] [1]
           (ValueError "Temporary failure") "success");
    [reflexivity | reflexivity | reflexivity |].
  apply returns_now. reflexivity.
Defined.

Lemma retry_from_outcome {W A : Type} (sleep : Z -> M W unit) (func : M W A)
    (max_retries delay : Z) (exception_types : exn -> bool) (n : nat) :
  forall (attempt : Z) (w : W) (tr : list event),
    attempt <= max_retries ->
    Z.to_nat (max_retries - attempt) = n ->
    exists o w' tr',
      retry_from sleep func max_retries delay exception_types attempt (w, tr)
      = (o, (w', tr ++ tr')) /\
      (length (delays tr') <= n)%nat /\
      Forall (fun d => d = delay) (delays tr') /\
      match o with
      | Ret None => False
      | Ret (Some a) => exists w0, func w0 = (Ret a, w')
      | Raise e =>
          (exists w0, func w0 = (Raise e, w')) \/
          (exists w0, sleep delay w0 = (Raise e, w'))
      end.
Proof.
  induction n as [| n IH]; intros attempt w tr Hle Hn; rewrite retry_from_eq;
    (destruct (Z_le_dec attempt max_retries); [| lia]);
    destruct (func w) as [[a | e] w'] eqn:Hf.
  - exists (Ret (Some a)), w', []. rewrite app_nil_r.
    repeat split; [simpl; lia | constructor | by exists w].
  - destruct (exception_types e).
    + destruct (Z_gt_dec (attempt + 1) max_retries); [| lia].
      exists (Raise e), w', []. rewrite app_nil_r.
      repeat split; [simpl; lia | constructor | left; by exists w].
    + exists (Raise e), w', []. rewrite app_nil_r.
      repeat split; [simpl; lia | constructor | left; by exists w].
  - exists (Ret (Some a)), w', []. rewrite app_nil_r.
    repeat split; [simpl; lia | constructor | by exists w].
  - destruct (exception_types e).
    + destruct (Z_gt_dec (attempt + 1) max_retries).
      * exists (Raise e), w', []. rewrite app_nil_r.
        repeat split; [simpl; lia | constructor | left; by exists w].
      * destruct (sleep delay w') as [[[] | err] w1] eqn:Hpause.
        -- destruct (IH (attempt + 1) w1
                       (tr ++ [Printed (LRetrying (str_exn e) delay (attempt + 1)
                                          max_retries);
                               Slept delay]))
             as (o & w'' & tr' & Hrun & Hlen & Hall & Hout); [lia | lia |].
           exists o, w'', ([Printed (LRetrying (str_exn e) delay (attempt + 1)
                                       max_retries);
                            Slept delay] ++ tr').
           rewrite Hrun, <- app_assoc. split; [reflexivity |].
           change (delays ([Printed (LRetrying (str_exn e) delay (attempt + 1)
                                       max_retries);
                            Slept delay] ++ tr')) with (delay :: delays tr').
           split; [simpl; lia |]. split; [by constructor | exact Hout].
        -- exists (Raise err), w1,
             [Printed (LRetrying (str_exn e) delay (attempt + 1) max_retries)].
           repeat split; [simpl; lia | constructor | right; by exists w'].
    + exists (Raise e), w', []. rewrite app_nil_r.
      repeat split; [simpl; lia | constructor | left; by exists w].
Qed.

(** X5. With [max_retries >= 0], whatever the operation does, [retry] never
    returns [None]: it returns a value the operation returned, or raises an
    exception that the operation's last invocation raised or that
    [time.sleep] raised; and it completes at most [max_retries] pauses, each
    of length [delay]. *)
Theorem retry_outcome {W A : Type} (sleep : Z -> M W unit) (func : M W A)
    (max_retries delay : Z) (exception_types : exn -> bool) (w : W) (tr : list event) :
  0 <= max_retries ->
  exists o w' tr',
    retry sleep func max_retries delay exception_types (w, tr) = (o, (w', tr ++ tr')) /\
    (length (delays tr') <= Z.to_nat max_retries)%nat /\
    Forall (fun d => d = delay) (delays tr') /\
    match o with
    | Ret None => False
    | Ret (Some a) => exists w0, func w0 = (Ret a, w')
    | Raise e =>
        (exists w0, func w0 = (Raise e, w')) \/
        (exists w0, sleep delay w0 = (Raise e, w'))
    end.
Proof.
  intros Hle. unfold retry.
  apply (retry_from_outcome sleep func max_retries delay exception_types
           (Z.to_nat max_retries)); [lia | f_equal; lia].
Qed.

Lemma retry_outcome_witness :
  exists o w' tr',
    retry no_sleep sometimes_fails 2 0 is_ValueError ([], []) = (o, (w', [] ++ tr')) /\
    (length (delays tr') <= Z.to_nat 2)%nat /\
    Forall (fun d => d = 0) (delays tr') /\
    match o with
    | Ret None => False
    | Ret (Some a) => exists w0, sometimes_fails w0 = (Ret a, w')
    | Raise e =>
        (exists w0, sometimes_fails w0 = (Raise e, w')) \/
        (exists w0, @no_sleep (list Z) 0 w0 = (Raise e, w'))
    end.
Proof. apply (retry_outcome no_sleep sometimes_fails 2 0 is_ValueError [] []). lia. Defined.

(** X6. With [max_retries >= 0], a failure of a kind outside
    [exception_types] is raised by [retry] at the first attempt: one
    invocation, no notice, no pause. *)
Theorem retry_not_retryable {W A : Type} (sleep : Z -> M W unit) (func : M W A)
    (max_retries delay : Z) (exception_types : exn -> bool)
    (w w' : W) (e : exn) (log : list step) (tr : list event) :
  0 <= max_retries ->
  func w = (Raise e, w') ->
  exception_types e = false ->
  retry sleep func max_retries delay exception_types (w, tr) = (Raise e, (w', tr)) /\
  retry (logged_sleep sleep) (logged func) max_retries delay exception_types
    ((w, log), tr)
  = (Raise e, ((w', log ++ [Attempt]), tr)).
Proof.
  intros Hle Hf Hex. unfold retry. split.
  - by apply retry_from_not_retryable.
  - apply retry_from_not_retryable; [exact Hle | | exact Hex].
    unfold logged. cbn [fst snd]. by rewrite Hf.
Qed.

Lemma retry_not_retryable_witness :
  retry no_sleep always_fails 2 300 is_TikTokAPIError (tt, [])
  = (Raise (ValueError "Always fails"), (tt, [])) /\
  retry (logged_sleep no_sleep) (logged always_fails) 2 300 is_TikTokAPIError
    ((tt, []), [])
  = (Raise (ValueError "Always fails"), ((tt, [] ++ [Attempt]), [])).
Proof.
  apply (retry_not_retryable no_sleep always_fails 2 300 is_TikTokAPIError tt tt
           (ValueError "Always fails") [] []); [lia | reflexivity | reflexivity].
Defined.

(** ** The client: what a call sends and what it leaves *)

Section ClientMore.
Context `{Platform}.

(** X7. The [access_token] property never installs a token: from any client
    it leaves the client, the world and the requests sent exactly as they
    were.  It returns the cached token when that is still valid, and ends in
    [RecursionError] otherwise. *)
Theorem access_token_never_installs (depth : nat) (c : Client) :
  access_token depth c =
  ((if token_stale (self c) (utcnow (net c)) then Raise RecursionError
    else match depth with
         | O => Raise RecursionError
         | S _ => Ret (_access_token (self c))
         end), c).
Proof.
  destruct (token_stale (self c) (utcnow (net c))) eqn:Hstale.
  - by destruct (stale_token_cycle depth c Hstale) as (-> & _).
  - destruct depth as [| depth]; [reflexivity |]. by apply access_token_fresh.
Qed.

Lemma sends_weaken {A : Type} (n k : nat) (m : M Client A) :
  (n <= k)%nat -> sends_at_most n m -> sends_at_most k m.
Proof.
  intros Hle Hm c. destruct (Hm c) as (o & c' & new & Hrun & Hself & Hwire & Hlen).
  exists o, c', new. repeat split; [done | done | done | lia].
Qed.

Lemma sends_ret {A : Type} (a : A) : sends_at_most 0 (ret a : M Client A).
Proof. intros c. exists (Ret a), c, []. rewrite app_nil_r. by repeat split. Qed.

Lemma sends_raise {A : Type} (e : exn) : sends_at_most 0 (raise e : M Client A).
Proof. intros c. exists (Raise e), c, []. rewrite app_nil_r. by repeat split. Qed.

Lemma sends_gets {A : Type} (f : Client -> A) : sends_at_most 0 (gets f).
Proof. intros c. exists (Ret (f c)), c, []. rewrite app_nil_r. by repeat split. Qed.

Lemma sends_lift_outcome {A : Type} (o : outcome A) :
  sends_at_most 0 (lift_outcome o : M Client A).
Proof. intros c. exists o, c, []. rewrite app_nil_r. by repeat split. Qed.

Lemma sends_bind {A B : Type} (n k : nat) (m : M Client A) (f : A -> M Client B) :
  sends_at_most n m ->
  (forall a, sends_at_most k (f a)) ->
  sends_at_most (n + k) (bind m f).
Proof.
  intros Hm Hf c. destruct (Hm c) as (o & c1 & new1 & Hrun & Hself & Hwire & Hlen).
  unfold bind. rewrite Hrun. destruct o as [a | e].
  - destruct (Hf a c1) as (o2 & c2 & new2 & Hrun2 & Hself2 & Hwire2 & Hlen2).
    exists o2, c2, (new1 ++ new2). rewrite Hrun2, Hself2, Hwire2, Hwire, app_assoc.
    repeat split; [done |]. rewrite length_app. lia.
  - exists (Raise e), c1, new1. repeat split; [done | done | lia].
Qed.

Lemma sends_try_except {A : Type} (n k : nat) (m : M Client A) (catches : exn -> bool)
    (handler : exn -> M Client A) :
  sends_at_most n m ->
  (forall e, sends_at_most k (handler e)) ->
  sends_at_most (n + k) (try_except m catches handler).
Proof.
  intros Hm Hh c. destruct (Hm c) as (o & c1 & new1 & Hrun & Hself & Hwire & Hlen).
  unfold try_except. rewrite Hrun. destruct o as [a | e].
  - exists (Ret a), c1, new1. repeat split; [done | done | lia].
  - destruct (catches e).
    + destruct (Hh e c1) as (o2 & c2 & new2 & Hrun2 & Hself2 & Hwire2 & Hlen2).
      exists o2, c2, (new1 ++ new2). rewrite Hrun2, Hself2, Hwire2, Hwire, app_assoc.
      repeat split; [done |]. rewrite length_app. lia.
    + exists (Raise e), c1, new1. repeat split; [done | done | lia].
Qed.

Lemma make_request_sends (depth : nat) (method endpoint : string)
    (params : list (string * string)) (json_data : option payload)
    (headers : option (gmap string pyval)) :
  sends_at_most 1 (_make_request depth method endpoint params json_data headers).
Proof.
  intros c. destruct (token_stale (self c) (utcnow (net c))) eqn:Hstale.
  - destruct (stale_token_cycle depth c Hstale) as (_ & _ & ->).
    exists (Raise RecursionError), c, []. rewrite app_nil_r. repeat split; simpl; lia.
  - destruct depth as [| depth].
    + exists (Raise RecursionError), c, []. rewrite app_nil_r. repeat split; simpl; lia.
    + destruct depth as [| depth].
      * exists (Raise RecursionError), c, []. rewrite app_nil_r.
        repeat split; simpl; lia.
      * cbn [_make_request]. unfold bind at 1.
        rewrite (access_token_fresh depth c Hstale).
        unfold try_except, send.
        match goal with
        | |- context [session_request ?req (net c)] =>
            destruct (session_request req (net c)) as [[msg | data] w];
            [exists (Raise (TikTokAPIError ("API request failed: " +:+ msg))),
                    (mkClient (self c) w (wire c ++ [req])), [req]
            | exists (Ret data), (mkClient (self c) w (wire c ++ [req])), [req]]
        end; repeat split; simpl; lia.
Qed.

Lemma get_access_token_sends (depth : nat) : sends_at_most 1 (get_access_token depth).
Proof.
  destruct depth as [| depth]; [apply (sends_weaken 0); [lia | apply sends_raise] |].
  cbn [get_access_token].
  apply (sends_try_except 1 0); [| intros e; apply sends_raise].
  apply (sends_bind 0 1); [apply sends_gets |]. intros me.
  apply (sends_bind 1 0); [apply make_request_sends |]. intros data.
  destruct (code_is_zero data); [| apply sends_raise].
  destruct (rsp_data data) as [d |]; [| apply sends_raise].
  apply (sends_bind 0 0); [apply sends_gets |]. intros me'. apply sends_ret.
Qed.

Lemma get_campaigns_sends (depth : nat) : sends_at_most 1 (get_campaigns depth).
Proof.
  unfold get_campaigns.
  apply (sends_try_except 1 0); [| intros e; apply sends_raise].
  apply (sends_bind 0 1); [apply sends_gets |]. intros me.
  apply (sends_bind 1 0); [apply make_request_sends |]. intros data.
  destruct (code_is_zero data); [apply sends_ret | apply sends_raise].
Qed.

Lemma update_campaign_budget_sends (depth : nat) (campaign_id : option string)
    (new_budget : Q) :
  sends_at_most 1 (update_campaign_budget depth campaign_id new_budget).
Proof.
  unfold update_campaign_budget.
  apply (sends_try_except 1 0); [| intros e; apply sends_raise].
  apply (sends_bind 0 1); [apply sends_gets |]. intros me.
  apply (sends_bind 1 0); [apply make_request_sends |]. intros data.
  destruct (negb (code_is_zero data)); [apply sends_raise | apply sends_ret].
Qed.

Lemma get_campaign_performance_sends (depth : nat) (days : Z)
    (min_spend min_payment_rate : Q) :
  sends_at_most 2 (get_campaign_performance depth days min_spend min_payment_rate).
Proof.
  unfold get_campaign_performance.
  apply (sends_try_except 2 0); [| intros e; apply sends_raise].
  apply (sends_bind 0 2); [apply sends_gets |]. intros end_date.
  apply (sends_bind 1 1); [apply get_campaigns_sends |]. intros campaigns.
  apply (sends_bind 0 1); [apply sends_lift_outcome |]. intros campaign_ids.
  apply (sends_bind 0 1); [apply sends_lift_outcome |]. intros campaign_budgets.
  destruct campaign_ids as [| id ids]; [apply (sends_weaken 0); [lia | apply sends_ret] |].
  apply (sends_bind 0 1); [apply sends_gets |]. intros me.
  apply (sends_bind 1 0); [apply make_request_sends |]. intros data.
  destruct (negb (code_is_zero data)); [apply sends_raise | apply sends_ret].
Qed.

(** X8. From any client and whatever the platform answers,
    [get_access_token], [get_campaigns] and [update_campaign_budget] each
    send at most one request and [get_campaign_performance] at most two; none
    of them changes the client object, so none ever caches a token. *)
Theorem methods_send_boundedly (depth : nat) :
  sends_at_most 1 (get_access_token depth) /\
  sends_at_most 1 (get_campaigns depth) /\
  (forall campaign_id new_budget,
     sends_at_most 1 (update_campaign_budget depth campaign_id new_budget)) /\
  (forall days min_spend min_payment_rate,
     sends_at_most 2 (get_campaign_performance depth days min_spend min_payment_rate)).
Proof.
  split; [apply get_access_token_sends |]. split; [apply get_campaigns_sends |].
  split; [intros; apply update_campaign_budget_sends |].
  intros. apply get_campaign_performance_sends.
Qed.

End ClientMore.

Section LoopMore.
Context `{Platform}.

Lemma client_sleep_keeps (delay : Z) (c : Client) :
  exists o c', client_sleep delay c = (o, c') /\ self c' = self c /\ wire c' = wire c.
Proof.
  unfold client_sleep. destruct (delay <? 0); eexists _, _; by repeat split.
Qed.

Lemma retry_from_sends {A : Type} (n : nat) (func : M Client A)
    (max_retries delay : Z) (exception_types : exn -> bool) :
  sends_at_most n func ->
  forall (k : nat) (attempt : Z) (c : Client) (tr : list event),
    Z.to_nat (max_retries + 1 - attempt) = k ->
    exists o c' tr' new,
      retry_from client_sleep func max_retries delay exception_types attempt (c, tr)
      = (o, (c', tr')) /\
      self c' = self c /\
      wire c' = wire c ++ new /\
      (length new <= n * k)%nat.
Proof.
  intros Hfunc. induction k as [| k IH]; intros attempt c tr Hk; rewrite retry_from_eq.
  - destruct (Z_le_dec attempt max_retries); [lia |].
    exists (Ret None), c, tr, []. rewrite app_nil_r. repeat split; simpl; lia.
  - destruct (Z_le_dec attempt max_retries); [| lia].
    destruct (Hfunc c) as (o & c1 & new1 & Hrun & Hself & Hwire & Hlen). rewrite Hrun.
    destruct o as [a | e].
    + exists (Ret (Some a)), c1, tr, new1. repeat split; [done | done | lia].
    + destruct (exception_types e);
        [| exists (Raise e), c1, tr, new1; repeat split; [done | done | lia]].
      destruct (Z_gt_dec (attempt + 1) max_retries);
        [exists (Raise e), c1, tr, new1; repeat split; [done | done | lia] |].
      destruct (client_sleep_keeps delay c1) as (os & cs & Hpause & Hselfs & Hwires).
      rewrite Hpause. destruct os as [[] | err].
      * destruct (IH (attempt + 1) cs
                    (tr ++ [Printed (LRetrying (str_exn e) delay (attempt + 1) max_retries);
                            Slept delay]))
          as (o2 & c2 & tr2 & new2 & Hrun2 & Hself2 & Hwire2 & Hlen2); [lia |].
        exists o2, c2, tr2, (new1 ++ new2). rewrite Hrun2, Hself2, Hwire2.
        rewrite Hselfs, Hwires, Hself, Hwire, app_assoc.
        split; [reflexivity |]. split; [reflexivity |]. split; [reflexivity |].
        rewrite length_app. lia.
      * eexists (Raise err), cs, _, new1. rewrite Hselfs, Hwires.
        split; [reflexivity |]. split; [done |]. split; [done | lia].
Qed.

Lemma process_campaign_sends (depth : nat) (campaign : Campaign) :
  run_sends_at_most 3 (process_campaign depth campaign).
Proof.
  intros c tr. rewrite process_campaign_eq.
  destruct (calculate_roas campaign) as [roas | e].
  - destruct (budget campaign) as [current_budget |].
    + cbv zeta. destruct (Qeq_bool _ current_budget).
      * eexists (Ret tt), c, _, []. rewrite app_nil_r. repeat split; simpl; lia.
      * destruct (retry_from_sends 1
                    (update_campaign_budget depth (campaign_id campaign)
                       (calculate_new_budget current_budget
                          (calculate_adjustment_factor roas)))
                    2 300 is_TikTokAPIError
                    (update_campaign_budget_sends depth _ _) 3 0 c
                    (tr ++ calls_before_update campaign roas current_budget) eq_refl)
          as (o & c' & tr' & new & Hrun & Hself & Hwire & Hlen).
        unfold retry. rewrite Hrun.
        destruct o as [r | e]; eexists (Ret tt), c', _, new;
          (split; [reflexivity |]); (split; [done |]); (split; [done | lia]).
    + eexists (Ret tt), c, _, []. rewrite app_nil_r. repeat split; simpl; lia.
  - eexists (Ret tt), c, _, []. rewrite app_nil_r. repeat split; simpl; lia.
Qed.

(** X9. The campaign loop sends at most three requests per campaign (one
    update and its two retries), whatever the platform answers, and never
    changes the client object. *)
Theorem campaign_loop_sends_boundedly (depth : nat) (campaigns : list Campaign) :
  run_sends_at_most (3 * length campaigns) (process_campaigns depth campaigns).
Proof.
  induction campaigns as [| campaign rest IH]; intros c tr.
  - exists (Ret tt), c, tr, []. rewrite app_nil_r. repeat split; simpl; lia.
  - destruct (process_campaign_summary depth campaign c tr) as (c1 & added & Hrun1 & _).
    destruct (process_campaign_sends depth campaign c tr)
      as (o1 & c1' & tr1 & new1 & Hrun1' & Hself1 & Hwire1 & Hlen1).
    rewrite Hrun1 in Hrun1'. injection Hrun1' as <- <- <-.
    destruct (IH c1 (tr ++ added)) as (o2 & c2 & tr2 & new2 & Hrun2 & Hself2 & Hwire2 & Hlen2).
    exists o2, c2, tr2, (new1 ++ new2).
    cbn [process_campaigns]. unfold bind at 1. rewrite Hrun1, Hrun2.
    rewrite Hself2, Hwire2, Hself1, Hwire1, app_assoc.
    split; [reflexivity |]. split; [reflexivity |]. split; [reflexivity |].
    rewrite length_app. cbn [length]. lia.
Qed.

End LoopMore.

(** ** Authentication: the replies of the token endpoint *)

Section AuthMore.
Context `{Platform}.

(** With a valid cached token, [get_access_token] by the reply it gets. *)
Lemma get_access_token_by_reply (depth : nat) (c : Client) :
  token_stale (self c) (utcnow (net c)) = false ->
  get_access_token (S (S (S depth))) c =
  match session_request (token_request (self c)) (net c) with
  | (inl msg, w) =>
      (Raise (TikTokAPIError
                ("Failed to get access token: " +:+ ("API request failed: " +:+ msg))),
       mkClient (self c) w (wire c ++ [token_request (self c)]))
  | (inr data, w) =>
      (if code_is_zero data then
         match rsp_data data with
         | None => Raise (KeyError "data")
         | Some d =>
             Ret (<["access_token" := opt_str (data_access_token d)]>
                  (<["advertiser_ids" := PList (default [] (data_advertiser_ids d))]>
                   (<["ad_id_validity" :=
                        PBool (bool_decide
                                 (ad_id (self c) ∈ default [] (data_advertiser_ids d)))]>
                    ∅)))
         end
       else
         Raise (TikTokAPIError
                  ("Failed to get access token: " +:+
                   ("API error: " +:+ error_msg_of data +:+
                    " (code: " +:+ str_code (rsp_code data) +:+ ")"))),
       mkClient (self c) w (wire c ++ [token_request (self c)]))
  end.
Proof.
  intros Hfresh.
  cbn [get_access_token]. unfold try_except, bind at 1, gets at 1, bind at 1.
  rewrite (make_request_fresh depth c _ _ _ _ Hfresh).
  fold (token_request (self c)).
  destruct (session_request (token_request (self c)) (net c)) as [[msg | data] w];
    [reflexivity |].
  destruct (code_is_zero data); [| reflexivity].
  destruct (rsp_data data) as [d |]; reflexivity.
Qed.

(** X10. Whenever [get_access_token] returns, the dict has the three keys
    [main] reads: "access_token" (a string or [None]), "advertiser_ids", and
    "ad_id_validity", which tells whether the client's advertiser id is among
    the advertiser ids of the dict. *)
Theorem token_info_keys (depth : nat) (c c' : Client) (token_data : gmap string pyval) :
  get_access_token depth c = (Ret token_data, c') ->
  exists tok ids,
    token_data !! "access_token" = Some tok /\
    (tok = PNone \/ exists s, tok = PStr s) /\
    token_data !! "advertiser_ids" = Some (PList ids) /\
    token_data !! "ad_id_validity" = Some (PBool (bool_decide (ad_id (self c) ∈ ids))).
Proof.
  destruct depth as [| depth]; [discriminate |].
  cbn [get_access_token]. unfold try_except, bind at 1, gets at 1, bind at 1.
  destruct (make_request_sends depth "GET" "oauth2/access_token/"
              [("app_id", app_id (self c)); ("secret", secret (self c));
               ("auth_code", auth_code (self c))] None None c)
    as (o & c1 & new & Hrun & Hself & _).
  rewrite Hrun. destruct o as [data | e];
    [| destruct (is_TikTokAPIError e); unfold raise; discriminate].
  destruct (code_is_zero data); [| unfold raise; simpl; discriminate].
  destruct (rsp_data data) as [d |]; [| unfold raise; simpl; discriminate].
  unfold bind, gets, ret. rewrite Hself. intros [= <- _].
  exists (opt_str (data_access_token d)), (default [] (data_advertiser_ids d)).
  split; [apply lookup_insert_eq |]. split.
  - destruct (data_access_token d) as [s |]; [right; by exists s | by left].
  - split.
    + rewrite lookup_insert_ne by done. apply lookup_insert_eq.
    + rewrite !lookup_insert_ne by done. apply lookup_insert_eq.
Qed.

(** X11. With a valid cached token, the failures of the token call: a
    transport failure and a reply with a non-zero code both come out as a
    [TikTokAPIError] whose message starts with "Failed to get access token: ";
    a reply with code 0 and no "data" comes out as [KeyError], not as a
    [TikTokAPIError].  In each case exactly one request was sent. *)
Theorem authentication_errors (depth : nat) (c : Client) (w : World) :
  token_stale (self c) (utcnow (net c)) = false ->
  let sent := mkClient (self c) w (wire c ++ [token_request (self c)]) in
  (forall msg,
     session_request (token_request (self c)) (net c) = (inl msg, w) ->
     get_access_token (S (S (S depth))) c
     = (Raise (TikTokAPIError
                 ("Failed to get access token: " +:+ ("API request failed: " +:+ msg))),
        sent)) /\
  (forall data,
     session_request (token_request (self c)) (net c) = (inr data, w) ->
     code_is_zero data = false ->
     get_access_token (S (S (S depth))) c
     = (Raise (TikTokAPIError
                 ("Failed to get access token: " +:+
                  ("API error: " +:+ error_msg_of data +:+
                   " (code: " +:+ str_code (rsp_code data) +:+ ")"))),
        sent)) /\
  (forall data,
     session_request (token_request (self c)) (net c) = (inr data, w) ->
     code_is_zero data = true ->
     rsp_data data = None ->
     get_access_token (S (S (S depth))) c = (Raise (KeyError "data"), sent)).
Proof.
  intros Hfresh sent. rewrite (get_access_token_by_reply depth c Hfresh).
  repeat split.
  - intros msg ->. reflexivity.
  - intros data -> ->. reflexivity.
  - intros data -> -> ->. reflexivity.
Qed.

(** X12. A token reply with code 0 and no "data" ends the run: the
    [KeyError] is not retried and is caught by no [except] clause of step 1;
    [main] stops with it after one request, having printed nothing. *)
Theorem missing_data_ends_the_run (depth : nat) (c : Client) (tr : list event)
    (data : Response) (w : World) :
  token_stale (self c) (utcnow (net c)) = false ->
  session_request (token_request (self c)) (net c) = (inr data, w) ->
  code_is_zero data = true ->
  rsp_data data = None ->
  main_steps (S (S (S depth))) (c, tr)
  = (Raise (KeyError "data"),
     (mkClient (self c) w (wire c ++ [token_request (self c)]), tr)).
Proof.
  intros Hfresh Hreply Hcode Hdata.
  unfold main_steps, bind at 1, get_token_step, try_except at 1, bind at 1, retry.
  rewrite retry_from_eq. destruct (Z_le_dec 0 2) as [_ | Hle]; [| lia].
  rewrite (get_access_token_by_reply depth c Hfresh), Hreply, Hcode, Hdata.
  reflexivity.
Qed.

End AuthMore.

Lemma token_info_keys_witness :
  exists tok ids,
    (<["access_token" := PStr "tok2"]>
     (<["advertiser_ids" := PList [ADVERTISER_ID]]>
      (<["ad_id_validity" := PBool true]> (∅ : gmap string pyval))))
    !! "access_token" = Some tok /\
    (tok = PNone \/ exists s, tok = PStr s) /\
    (<["access_token" := PStr "tok2"]>
     (<["advertiser_ids" := PList [ADVERTISER_ID]]>
      (<["ad_id_validity" := PBool true]> (∅ : gmap string pyval))))
    !! "advertiser_ids" = Some (PList ids) /\
    (<["access_token" := PStr "tok2"]>
     (<["advertiser_ids" := PList [ADVERTISER_ID]]>
      (<["ad_id_validity" := PBool true]> (∅ : gmap string pyval))))
    !! "ad_id_validity"
    = Some (PBool (bool_decide (ad_id api_with_token ∈ ids))).
Proof.
  apply (@token_info_keys scripted 3
           (scripted_client api_with_token [token_ok "tok2" [ADVERTISER_ID]])
           (@mkClient scripted api_with_token (0, []) [token_request api_with_token])).
  vm_compute. reflexivity.
Defined.

Lemma authentication_errors_witness :
  @get_access_token scripted 3 (scripted_client api_with_token [inl "timeout"])
  = (Raise (TikTokAPIError "Failed to get access token: API request failed: timeout"),
     @mkClient scripted api_with_token (0, []) [token_request api_with_token]).
Proof.
  destruct (@authentication_errors scripted 0
              (scripted_client api_with_token [inl "timeout"]) (0, []) eq_refl)
    as (Htransport & _ & _).
  apply (Htransport "timeout"). reflexivity.
Defined.

Lemma missing_data_ends_the_run_witness :
  @main_steps scripted 3
    (scripted_client api_with_token [inr (mkResponse (Some 0) (Some "OK") None)], [])
  = (Raise (KeyError "data"),
     (@mkClient scripted api_with_token (0, []) [token_request api_with_token], [])).
Proof.
  apply (@missing_data_ends_the_run scripted 0
           (scripted_client api_with_token [inr (mkResponse (Some 0) (Some "OK") None)])
           [] (mkResponse (Some 0) (Some "OK") None) (0, [])); reflexivity.
Defined.

(** ** Fetching: the campaign list, its keys and the report *)

Lemma campaign_ids_of_raises (campaigns : list Item) (e : exn) :
  campaign_ids_of campaigns = Raise e -> e = KeyError "campaign_id".
Proof.
  induction campaigns as [| c rest IH]; simpl; [discriminate |].
  destruct (item_campaign_id c) as [id |]; [| by intros [= <-]].
  destruct (campaign_ids_of rest) as [ids | e']; [discriminate |].
  intros [= <-]. by apply IH.
Qed.

Lemma campaign_budgets_of_raises (campaigns : list Item) :
  forall (ids : list string) (acc : gmap string (option Q)),
    campaign_ids_of campaigns = Ret ids ->
    Exists (fun c => item_campaign_id c = None \/ item_budget c = None) campaigns ->
    campaign_budgets_of campaigns acc = Raise (KeyError "budget").
Proof.
  induction campaigns as [| c rest IH]; intros ids acc Hids Hbad; simpl in *.
  - by apply Exists_nil in Hbad.
  - destruct (item_campaign_id c) as [id |] eqn:Hid; [| discriminate].
    destruct (campaign_ids_of rest) as [ids' | e] eqn:Hrest; [| discriminate].
    destruct (item_budget c) as [b |] eqn:Hb; [| reflexivity].
    apply Exists_cons in Hbad as [[Hnone | Hnone] | Hbad]; [congruence | congruence |].
    by apply (IH ids').
Qed.

Lemma campaign_budgets_of_app (before after : list Item) :
  forall acc : gmap string (option Q),
    campaign_budgets_of (before ++ after) acc =
    match campaign_budgets_of before acc with
    | Ret m => campaign_budgets_of after m
    | Raise e => Raise e
    end.
Proof.
  induction before as [| c rest IH]; intros acc; simpl; [reflexivity |].
  destruct (item_campaign_id c) as [id |]; [| reflexivity].
  destruct (item_budget c) as [b |]; [apply IH | reflexivity].
Qed.

Lemma campaign_budgets_of_other (campaigns : list Item) (id : string) :
  forall acc m : gmap string (option Q),
    campaign_budgets_of campaigns acc = Ret m ->
    Forall (fun c => item_campaign_id c <> Some id) campaigns ->
    m !! id = acc !! id.
Proof.
  induction campaigns as [| c rest IH]; intros acc m; simpl.
  - by intros [= <-].
  - destruct (item_campaign_id c) as [k |] eqn:Hk; [| discriminate].
    destruct (item_budget c) as [b |]; [| discriminate].
    intros Hm Hall. apply Forall_cons in Hall as [Hne Hall].
    rewrite (IH _ _ Hm Hall). apply lookup_insert_ne. congruence.
Qed.

(** X13. When two entries of the campaign list have the same id, the budget
    of the later one is the budget the dict holds, and so the budget a report
    row with that id is joined with. *)
Theorem budgets_last_entry_wins (before after : list Item) (id : string) (b : option Q)
    (dims : option Dimensions) (mets : option Metrics)
    (campaign_budgets : gmap string (option Q)) (stat : Item) :
  campaign_budgets_of (before ++ mkItem (Some id) (Some b) dims mets :: after) ∅
  = Ret campaign_budgets ->
  Forall (fun c => item_campaign_id c <> Some id) after ->
  stat_campaign_id stat = Some id ->
  campaign_budgets !! id = Some b /\
  budget (campaign_of campaign_budgets stat) = b.
Proof.
  intros Hm Hafter Hstat. rewrite campaign_budgets_of_app in Hm.
  destruct (campaign_budgets_of before ∅) as [m1 | e]; [| discriminate].
  simpl in Hm.
  assert (Hlook : campaign_budgets !! id = Some b).
  { rewrite (campaign_budgets_of_other after id _ _ Hm Hafter). apply lookup_insert_eq. }
  split; [exact Hlook |].
  unfold campaign_of, budget_of. simpl. by rewrite Hstat, Hlook.
Qed.

Lemma budgets_last_entry_wins_witness :
  ({["A" := Some 90%Q]} : gmap string (option Q)) !! "A" = Some (Some 90%Q) /\
  budget (campaign_of {["A" := Some 90%Q]} (row "A" 10 5)) = Some 90%Q.
Proof.
  apply (budgets_last_entry_wins [entry "A" 80] [] "A" (Some 90%Q) None None
           {["A" := Some 90%Q]} (row "A" 10 5));
    [vm_compute; reflexivity | constructor | reflexivity].
Defined.

(** X14. The campaigns returned are the report rows that pass the test, in
    report order and once per row, each joined with its budget; the loop
    works row by row, so the result over two lists of rows one after the
    other is the two results one after the other. *)
Theorem result_in_report_order (campaign_budgets : gmap string (option Q))
    (min_spend min_payment_rate : Q) (stats1 stats2 : list Item) :
  valid_campaigns_of campaign_budgets min_spend min_payment_rate stats1
  = List.map (campaign_of campaign_budgets)
      (List.filter (eligible min_spend min_payment_rate) stats1) /\
  valid_campaigns_of campaign_budgets min_spend min_payment_rate (stats1 ++ stats2)
  = valid_campaigns_of campaign_budgets min_spend min_payment_rate stats1 ++
    valid_campaigns_of campaign_budgets min_spend min_payment_rate stats2.
Proof.
  rewrite !valid_campaigns_of_filter_map. split; [reflexivity |].
  by rewrite List.filter_app, List.map_app.
Qed.

(** X15. Raising a threshold never adds a campaign: what is returned under
    higher thresholds is returned under lower ones. *)
Theorem higher_thresholds_return_less (campaign_budgets : gmap string (option Q))
    (min_spend min_spend' min_payment_rate min_payment_rate' : Q)
    (stats_list : list Item) (c : Campaign) :
  (min_spend <= min_spend')%Q ->
  (min_payment_rate <= min_payment_rate')%Q ->
  In c (valid_campaigns_of campaign_budgets min_spend' min_payment_rate' stats_list) ->
  In c (valid_campaigns_of campaign_budgets min_spend min_payment_rate stats_list).
Proof.
  intros Hs Hr (stat & Hin & -> & Hs' & Hr')%valid_campaigns_of_In.
  apply valid_campaigns_of_In. exists stat.
  repeat split; [done | lra | lra].
Qed.

Lemma higher_thresholds_return_less_witness :
  In (campaign_of ∅ (row "B" 101 5))
     (valid_campaigns_of ∅ 0 0 [row "A" 100 5; row "B" 101 5]).
Proof.
  apply (higher_thresholds_return_less ∅ 0 100 0 0 [row "A" 100 5; row "B" 101 5]);
    [discriminate | discriminate |].
  vm_compute. left. reflexivity.
Defined.

Section FetchMore.
Context `{Platform}.

(** With a valid cached token, [get_campaigns] by the reply it gets. *)
Lemma get_campaigns_by_reply (depth : nat) (c : Client) :
  token_stale (self c) (utcnow (net c)) = false ->
  get_campaigns (S (S depth)) c =
  match session_request (campaigns_request (self c)) (net c) with
  | (inl msg, w) =>
      (Raise (TikTokAPIError
                ("Failed to get campaigns: " +:+ ("API request failed: " +:+ msg))),
       mkClient (self c) w (wire c ++ [campaigns_request (self c)]))
  | (inr data, w) =>
      (if code_is_zero data then Ret (list_of data)
       else
         Raise (TikTokAPIError
                  ("Failed to get campaigns: " +:+
                   ("API error: " +:+ error_msg_of data +:+
                    " (code: " +:+ str_code (rsp_code data) +:+ ")"))),
       mkClient (self c) w (wire c ++ [campaigns_request (self c)]))
  end.
Proof.
  intros Hfresh.
  unfold get_campaigns, try_except, bind at 1, gets at 1, bind at 1.
  rewrite (make_request_fresh depth c _ _ _ _ Hfresh).
  fold (campaigns_request (self c)).
  destruct (session_request (campaigns_request (self c)) (net c)) as [[msg | data] w];
    [reflexivity |].
  destruct (code_is_zero data); reflexivity.
Qed.

(** X16. With a valid cached token, an empty campaign list ends the fetch:
    the result is the empty list and the report is never requested. *)
Theorem empty_campaign_list_skips_report (depth : nat) (days : Z)
    (min_spend min_payment_rate : Q) (c : Client) (listing : Response) (w : World) :
  token_stale (self c) (utcnow (net c)) = false ->
  session_request (campaigns_request (self c)) (net c) = (inr listing, w) ->
  code_is_zero listing = true ->
  list_of listing = [] ->
  get_campaign_performance (S (S depth)) days min_spend min_payment_rate c
  = (Ret [], mkClient (self c) w (wire c ++ [campaigns_request (self c)])).
Proof.
  intros Hfresh Hreply Hcode Hempty.
  unfold get_campaign_performance, try_except, bind at 1, gets at 1, bind at 1.
  rewrite (get_campaigns_by_reply depth c Hfresh), Hreply, Hcode, Hempty.
  reflexivity.
Qed.

(** X17. With a valid cached token, a campaign list with an entry that lacks
    "campaign_id" or "budget" makes the fetch raise [KeyError] on that key
    after the one request: the error is not turned into a [TikTokAPIError],
    so [retry] and the [except] clauses of [main] let it through. *)
Theorem missing_key_in_campaign_list (depth : nat) (days : Z)
    (min_spend min_payment_rate : Q) (c : Client) (listing : Response) (w : World) :
  token_stale (self c) (utcnow (net c)) = false ->
  session_request (campaigns_request (self c)) (net c) = (inr listing, w) ->
  code_is_zero listing = true ->
  Exists (fun entry => item_campaign_id entry = None \/ item_budget entry = None)
    (list_of listing) ->
  exists key,
    (key = "campaign_id" \/ key = "budget") /\
    is_TikTokAPIError (KeyError key) = false /\
    get_campaign_performance (S (S depth)) days min_spend min_payment_rate c
    = (Raise (KeyError key),
       mkClient (self c) w (wire c ++ [campaigns_request (self c)])).
Proof.
  intros Hfresh Hreply Hcode Hbad.
  unfold get_campaign_performance, try_except, bind at 1, gets at 1, bind at 1.
  rewrite (get_campaigns_by_reply depth c Hfresh), Hreply, Hcode.
  unfold bind at 1, lift_outcome at 1.
  destruct (campaign_ids_of (list_of listing)) as [ids | e] eqn:Hids.
  - exists "budget". split; [by right |]. split; [reflexivity |].
    unfold bind at 1, lift_outcome at 1.
    by rewrite (campaign_budgets_of_raises _ ids ∅ Hids Hbad).
  - apply campaign_ids_of_raises in Hids as ->.
    exists "campaign_id". split; [by left |]. split; reflexivity.
Qed.

(** X18. With a valid cached token, a failure of the campaign-list call
    reaches the caller as one [TikTokAPIError] whose message names each layer
    it went through; the report is not requested. *)
Theorem fetch_errors_are_nested (depth : nat) (days : Z)
    (min_spend min_payment_rate : Q) (c : Client) (w : World) :
  token_stale (self c) (utcnow (net c)) = false ->
  let sent := mkClient (self c) w (wire c ++ [campaigns_request (self c)]) in
  (forall msg,
     session_request (campaigns_request (self c)) (net c) = (inl msg, w) ->
     get_campaign_performance (S (S depth)) days min_spend min_payment_rate c
     = (Raise (TikTokAPIError
                 ("Failed to get campaign performance: " +:+
                  ("Failed to get campaigns: " +:+ ("API request failed: " +:+ msg)))),
        sent)) /\
  (forall data,
     session_request (campaigns_request (self c)) (net c) = (inr data, w) ->
     code_is_zero data = false ->
     get_campaign_performance (S (S depth)) days min_spend min_payment_rate c
     = (Raise (TikTokAPIError
                 ("Failed to get campaign performance: " +:+
                  ("Failed to get campaigns: " +:+
                   ("API error: " +:+ error_msg_of data +:+
                    " (code: " +:+ str_code (rsp_code data) +:+ ")")))),
        sent)).
Proof.
  intros Hfresh sent.
  split; [intros msg Hreply | intros data Hreply Hcode];
    unfold get_campaign_performance, try_except, bind at 1, gets at 1, bind at 1;
    rewrite (get_campaigns_by_reply depth c Hfresh), Hreply, ?Hcode; reflexivity.
Qed.

End FetchMore.

Lemma empty_campaign_list_skips_report_witness :
  @get_campaign_performance scripted 2 30 0 0
    (scripted_client api_with_token [ok_list []; ok_list [row "A" 100 5]])
  = (Ret [],
     @mkClient scripted api_with_token (0, [ok_list [row "A" 100 5]])
       [campaigns_request api_with_token]).
Proof.
  apply (@empty_campaign_list_skips_report scripted 0 30 0 0
           (scripted_client api_with_token [ok_list []; ok_list [row "A" 100 5]])
           (mkResponse (Some 0) (Some "OK") (Some (mkData None None (Some []))))
           (0, [ok_list [row "A" 100 5]])); reflexivity.
Defined.

Lemma missing_key_in_campaign_list_witness :
  exists key,
    (key = "campaign_id" \/ key = "budget") /\
    is_TikTokAPIError (KeyError key) = false /\
    @get_campaign_performance scripted 2 30 0 0
      (scripted_client api_with_token [ok_list [mkItem (Some "A") None None None]])
    = (Raise (KeyError key),
       @mkClient scripted api_with_token (0, []) [campaigns_request api_with_token]).
Proof.
  apply (@missing_key_in_campaign_list scripted 0 30 0 0
           (scripted_client api_with_token [ok_list [mkItem (Some "A") None None None]])
           (mkResponse (Some 0) (Some "OK")
              (Some (mkData None None (Some [mkItem (Some "A") None None None]))))
           (0, [])); [reflexivity | reflexivity | reflexivity |].
  apply Exists_cons_hd. by right.
Defined.

Lemma fetch_errors_are_nested_witness :
  @get_campaign_performance scripted 2 30 0 0
    (scripted_client api_with_token [inl "timeout"])
  = (Raise (TikTokAPIError
              "Failed to get campaign performance: Failed to get campaigns: API request failed: timeout"),
     @mkClient scripted api_with_token (0, []) [campaigns_request api_with_token]).
Proof.
  destruct (@fetch_errors_are_nested scripted 0 30 0 0
              (scripted_client api_with_token [inl "timeout"]) (0, []) eq_refl)
    as [Htransport _].
  apply (Htransport "timeout"). reflexivity.
Defined.

(** ** The campaign loop: when it touches the network *)

Lemma on_target_factor (roas : Q) :
  (roas == TARGET_ROAS)%Q -> (calculate_adjustment_factor roas == 0)%Q.
Proof.
  intros Hroas. unfold calculate_adjustment_factor.
  assert (Hraw : ((roas - TARGET_ROAS) / TARGET_ROAS == 0)%Q).
  { rewrite Hroas. reflexivity. }
  set (raw := ((roas - TARGET_ROAS) / TARGET_ROAS)%Q) in *.
  change MAX_ADJUSTMENT with (3 # 4).
  destruct (py_min_cases raw (3 # 4)) as [[H1 ->] | [H1 ->]]; [lra |].
  destruct (py_max_cases raw (- (3 # 4))) as [[H2 ->] | [H2 ->]]; lra.
Qed.

Lemma unchanged_budget (current_budget adjustment_factor : Q) :
  (adjustment_factor == 0)%Q ->
  (MIN_BUDGET <= current_budget)%Q ->
  Qeq_bool (calculate_new_budget current_budget adjustment_factor) current_budget = true.
Proof.
  intros Hf Hb. apply Qeq_bool_iff. unfold calculate_new_budget.
  assert (Hsame : (current_budget * (1 + adjustment_factor) == current_budget)%Q).
  { rewrite Hf. ring. }
  destruct (py_max_cases (current_budget * (1 + adjustment_factor)) MIN_BUDGET)
    as [[Hx ->] | [Hx ->]]; lra.
Qed.

Section LoopEdges.
Context `{Platform}.

(** X20. A campaign with zero spend does not stop the loop: the division
    by zero in [calculate_roas] is caught by the second [except] clause and
    reported as an unexpected error for that campaign; nothing is sent and no
    other policy function is called. *)
Theorem zero_spend_is_reported (depth : nat) (campaign : Campaign) (c : Client)
    (tr : list event) :
  (spend campaign == 0)%Q ->
  process_campaign depth campaign (c, tr)
  = (Ret tt,
     (c, tr ++ [Invoked (Call_calculate_roas campaign);
                Printed (LUnexpected (campaign_id campaign) "float division by zero")])).
Proof.
  intros Hzero. rewrite process_campaign_eq. unfold calculate_roas.
  apply Qeq_bool_iff in Hzero. by rewrite Hzero.
Qed.

(** X21. A campaign whose ROAS is exactly the target and whose budget is at
    least MIN_BUDGET is left alone: the loop prints "no change" and sends
    nothing. *)
Theorem on_target_is_left_alone (depth : nat) (campaign : Campaign)
    (current_budget : Q) (c : Client) (tr : list event) :
  ~ (spend campaign == 0)%Q ->
  (total_complete_payment_rate campaign / spend campaign == TARGET_ROAS)%Q ->
  budget campaign = Some current_budget ->
  (MIN_BUDGET <= current_budget)%Q ->
  process_campaign depth campaign (c, tr)
  = (Ret tt,
     (c, tr ++
         calls_before_update campaign
           (total_complete_payment_rate campaign / spend campaign) current_budget ++
         [Printed (LNoChange (campaign_id campaign)
                     (total_complete_payment_rate campaign / spend campaign))])).
Proof.
  intros Hspend Hroas Hbudget Hfloor. rewrite process_campaign_eq. unfold calculate_roas.
  destruct (Qeq_bool (spend campaign) 0) eqn:Hzero;
    [by apply Qeq_bool_iff in Hzero |].
  rewrite Hbudget. cbv zeta.
  by rewrite (unchanged_budget current_budget _ (on_target_factor _ Hroas) Hfloor).
Qed.

(** X22. The loop body touches the network only to update: when the spend
    is zero, or the budget is unknown, or the new budget equals the current
    one, the client, the world and the requests sent are exactly as before,
    and nothing pauses. *)
Theorem no_update_without_change (depth : nat) (campaign : Campaign) (c : Client)
    (tr : list event) :
  Qeq_bool (spend campaign) 0 = true \/
  budget campaign = None \/
  (exists current_budget,
     budget campaign = Some current_budget /\
     Qeq_bool
       (calculate_new_budget current_budget
          (calculate_adjustment_factor
             (total_complete_payment_rate campaign / spend campaign)))
       current_budget = true) ->
  exists new,
    process_campaign depth campaign (c, tr) = (Ret tt, (c, tr ++ new)) /\
    delays new = [].
Proof.
  intros Hcase. rewrite process_campaign_eq. unfold calculate_roas.
  destruct (Qeq_bool (spend campaign) 0) eqn:Hzero.
  - eexists. split; [reflexivity |]. unfold failure_line. reflexivity.
  - destruct Hcase as [Hc | [Hnone | (current_budget & Hsome & Hsame)]];
      [discriminate | |].
    + rewrite Hnone. eexists. split; reflexivity.
    + rewrite Hsome. cbv zeta. rewrite Hsame. eexists. split; reflexivity.
Qed.

(** With a valid cached token, [update_campaign_budget] by the reply. *)
Lemma update_campaign_budget_by_reply (depth : nat) (campaign_id : option string)
    (new_budget : Q) (c : Client) :
  token_stale (self c) (utcnow (net c)) = false ->
  let req := update_request (self c) campaign_id new_budget in
  update_campaign_budget (S (S depth)) campaign_id new_budget c =
  match session_request req (net c) with
  | (inl msg, w) =>
      (Raise (TikTokAPIError
                ("Error updating campaign " +:+ str_opt campaign_id +:+ " budget: " +:+
                 ("API request failed: " +:+ msg))),
       mkClient (self c) w (wire c ++ [req]))
  | (inr data, w) =>
      (if code_is_zero data then Ret data
       else
         Raise (TikTokAPIError
                  ("Error updating campaign " +:+ str_opt campaign_id +:+ " budget: " +:+
                   ("Failed to update campaign budget: " +:+ error_msg_of data))),
       mkClient (self c) w (wire c ++ [req]))
  end.
Proof.
  intros Hfresh req.
  unfold update_campaign_budget, try_except, bind at 1, gets at 1, bind at 1.
  rewrite (make_request_fresh depth c _ _ _ _ Hfresh).
  fold (update_request (self c) campaign_id new_budget). fold req.
  destruct (session_request req (net c)) as [[msg | data] w]; [reflexivity |].
  destruct (code_is_zero data); reflexivity.
Qed.

(** X23. A pause that outlasts the token changes the failure: when an
    update fails at the transport and the cached token has expired by the end
    of the 300 second pause, the second attempt sends nothing and [retry]
    raises [RecursionError], not the [TikTokAPIError] of the update. *)
Theorem pause_outlasting_token (depth : nat) (campaign_id : option string)
    (new_budget : Q) (c : Client) (tr : list event) (msg : string) (w : World) :
  token_stale (self c) (utcnow (net c)) = false ->
  session_request (update_request (self c) campaign_id new_budget) (net c)
  = (inl msg, w) ->
  token_stale (self c) (utcnow (time_sleep 300 w)) = true ->
  retry client_sleep (update_campaign_budget (S (S depth)) campaign_id new_budget)
    2 300 is_TikTokAPIError (c, tr)
  = (Raise RecursionError,
     (mkClient (self c) (time_sleep 300 w)
        (wire c ++ [update_request (self c) campaign_id new_budget]),
      tr ++ [Printed (LRetrying
                        ("Error updating campaign " +:+ str_opt campaign_id +:+
                         " budget: " +:+ ("API request failed: " +:+ msg))
                        300 1 2);
             Slept 300])).
Proof.
  intros Hfresh Hreply Hstale. unfold retry.
  rewrite retry_from_eq. destruct (Z_le_dec 0 2) as [_ | Hle]; [| lia].
  rewrite (update_campaign_budget_by_reply depth campaign_id new_budget c Hfresh), Hreply.
  cbn [is_TikTokAPIError]. destruct (Z_gt_dec (0 + 1) 2) as [Hgt | _]; [lia |].
  change (client_sleep 300 ?cl)
    with (Ret tt, mkClient (self cl) (time_sleep 300 (net cl)) (wire cl)).
  cbn [self net wire].
  rewrite retry_from_eq. destruct (Z_le_dec (0 + 1) 2) as [_ | Hle]; [| lia].
  unfold update_campaign_budget, try_except, bind at 1, gets at 1, bind at 1.
  cbn [self].
  match goal with
  | |- context [_make_request ?d ?m ?e ?p ?j ?h ?cl] =>
      destruct (stale_token_cycle d cl Hstale) as (_ & _ & Hm);
      rewrite (Hm m e p j h)
  end.
  reflexivity.
Qed.

End LoopEdges.

Lemma zero_spend_is_reported_witness :
  @process_campaign scripted 3 (mkCampaign (Some "Z") 0 5 (Some 80%Q))
    (scripted_client api_with_token [], [])
  = (Ret tt,
     (scripted_client api_with_token [],
      [] ++ [Invoked (Call_calculate_roas (mkCampaign (Some "Z") 0 5 (Some 80%Q)));
             Printed (LUnexpected (Some "Z") "float division by zero")])).
Proof.
  apply (@zero_spend_is_reported scripted 3 (mkCampaign (Some "Z") 0 5 (Some 80%Q))).
  reflexivity.
Defined.

Lemma on_target_is_left_alone_witness :
  @process_campaign scripted 3 (mkCampaign (Some "T") 100 150 (Some 80%Q))
    (scripted_client api_with_token [], [])
  = (Ret tt,
     (scripted_client api_with_token [],
      [] ++ calls_before_update (mkCampaign (Some "T") 100 150 (Some 80%Q)) (150 / 100) 80 ++
      [Printed (LNoChange (Some "T") (150 / 100))])).
Proof.
  apply (@on_target_is_left_alone scripted 3 (mkCampaign (Some "T") 100 150 (Some 80%Q)));
    [discriminate | reflexivity | reflexivity | discriminate].
Defined.

Lemma no_update_without_change_witness :
  exists new,
    @process_campaign scripted 3 (mkCampaign (Some "B") 10 5 None)
      (scripted_client api_with_token [], [])
    = (Ret tt, (scripted_client api_with_token [], [] ++ new)) /\
    delays new = [].
Proof.
  apply (@no_update_without_change scripted 3 (mkCampaign (Some "B") 10 5 None)).
  right. left. reflexivity.
Defined.

Lemma pause_outlasting_token_witness :
  @retry (@Client scripted) Response (@client_sleep scripted)
    (@update_campaign_budget scripted 2 (Some "A") 100)
    2 300 is_TikTokAPIError
    (@mkClient scripted api_with_token (3400, [inl "timeout"; update_ok]) [], [])
  = (Raise RecursionError,
     (@mkClient scripted api_with_token (3700, [update_ok])
        [update_request api_with_token (Some "A") 100],
      [] ++ [Printed (LRetrying
                        ("Error updating campaign " +:+ str_opt (Some "A") +:+
                         " budget: " +:+ ("API request failed: " +:+ "timeout"))
                        300 1 2);
             Slept 300])).
Proof.
  apply (@pause_outlasting_token scripted 0 (Some "A") 100
           (@mkClient scripted api_with_token (3400, [inl "timeout"; update_ok]) [])
           [] "timeout" (3400, [update_ok])); reflexivity.
Defined.

(** ** The run from a client without a valid token *)

Section RunEdges.
Context `{Platform}.

(** X19. From any client whose token is absent or expired, the run stops in
    step 1 with [RecursionError]: the exception is not retried and not caught,
    nothing is printed, nothing is sent, and there is no pause. *)
Theorem stale_client_stops_the_run (depth : nat) (c : Client) (tr : list event) :
  token_stale (self c) (utcnow (net c)) = true ->
  main_steps depth (c, tr) = (Raise RecursionError, (c, tr)).
Proof.
  intros Hstale.
  unfold main_steps, bind at 1, get_token_step, try_except at 1, bind at 1, retry.
  rewrite retry_from_eq. destruct (Z_le_dec 0 2) as [_ | Hle]; [| lia].
  destruct (stale_token_cycle depth c Hstale) as (_ & -> & _).
  reflexivity.
Qed.

End RunEdges.

Lemma stale_client_stops_the_run_witness :
  @main_steps scripted 1000
    (@mkClient scripted api_with_token (3600, [token_ok "tok2" [ADVERTISER_ID]]) [], [])
  = (Raise RecursionError,
     (@mkClient scripted api_with_token (3600, [token_ok "tok2" [ADVERTISER_ID]]) [], [])).
Proof.
  apply (@stale_client_stops_the_run scripted 1000
           (@mkClient scripted api_with_token (3600, [token_ok "tok2" [ADVERTISER_ID]]) [])
           []).
  reflexivity.
Defined.

(** ** retry: a pause that raises *)

(** X24. When [time.sleep] raises (as it does for a negative [delay]) after
    a retryable failure that leaves a retry, [retry] ends with the exception
    of [time.sleep]: the operation was invoked once, the notice is printed,
    and the failure of the operation is not what is raised. *)
Theorem retry_pause_raises {W A : Type} (sleep : Z -> M W unit) (func : M W A)
    (max_retries delay : Z) (exception_types : exn -> bool)
    (w w1 w2 : W) (e err : exn) (log : list step) (tr : list event) :
  1 <= max_retries ->
  func w = (Raise e, w1) ->
  exception_types e = true ->
  sleep delay w1 = (Raise err, w2) ->
  retry sleep func max_retries delay exception_types (w, tr)
  = (Raise err, (w2, tr ++ [Printed (LRetrying (str_exn e) delay 1 max_retries)])) /\
  retry (logged_sleep sleep) (logged func) max_retries delay exception_types
    ((w, log), tr)
  = (Raise err,
     ((w2, log ++ [Attempt]),
      tr ++ [Printed (LRetrying (str_exn e) delay 1 max_retries)])).
Proof.
  intros Hle Hf Hex Hpause. unfold retry. split.
  - apply (retry_from_sleep_raises sleep func max_retries delay exception_types 0
             w w1 w2 e err tr); [lia | done | done | done].
  - apply (retry_from_sleep_raises (logged_sleep sleep) (logged func) max_retries delay
             exception_types 0 (w, log) (w1, log ++ [Attempt]) (w2, log ++ [Attempt])
             e err tr); [lia | | done |].
    + unfold logged. cbn [fst snd]. by rewrite Hf.
    + unfold logged_sleep. cbn [fst snd]. by rewrite Hpause.
Qed.

Lemma retry_pause_raises_witness :
  @retry (@Client scripted) Response (@client_sleep scripted)
    (@update_campaign_budget scripted 2 (Some "A") 100)
    2 (-1) is_TikTokAPIError
    (scripted_client api_with_token [inl "timeout"; update_ok], [])
  = (Raise (ValueError "sleep length must be non-negative"),
     (@mkClient scripted api_with_token (0, [update_ok])
        [update_request api_with_token (Some "A") 100],
      [] ++ [Printed (LRetrying
                        (str_exn (TikTokAPIError
                                    "Error updating campaign A budget: API request failed: timeout"))
                        (-1) 1 2)])).
Proof.
  apply (@retry_pause_raises (@Client scripted) Response (@client_sleep scripted)
           (@update_campaign_budget scripted 2 (Some "A") 100) 2 (-1) is_TikTokAPIError
           (scripted_client api_with_token [inl "timeout"; update_ok])
           (@mkClient scripted api_with_token (0, [update_ok])
              [update_request api_with_token (Some "A") 100])
           (@mkClient scripted api_with_token (0, [update_ok])
              [update_request api_with_token (Some "A") 100])
           (TikTokAPIError "Error updating campaign A budget: API request failed: timeout")
           (ValueError "sleep length must be non-negative") [] []);
    [lia | vm_compute; reflexivity | reflexivity | reflexivity].
Defined.
